(** * Service marketplace: request lifecycle, availability listing, payments

    A shallow embedding of the server side of the marketplace
    (shared/schema.ts, the storage class [DbStorage] and the route handlers
    registered by [registerRoutes]) together with the three request
    payloads built by the request-details page.

    Tables are lists of rows.  The database promises no order for a query
    without [orderBy]; the order of the list stands for the order in which
    it scans the table, taken here to be the order of insertion, with an
    updated row in the place of the old one.  A query with [limit(1)] and
    no ordering returns the first matching row of the list.  Values that
    the database or the runtime produce ([gen_random_uuid()],
    [defaultNow()], [new Date()], the answers of the payment processor) are
    arguments of the operations.

    The second part adds the read routes, the account routes with the
    users table in full, and the decision logic of the client's pages
    (buttons, forms, filters, counters), with properties that relate the
    pages to the server. *)

From Stdlib Require Import ZArith Lia.
From stdpp Require Import base decidable option list strings sorting.

Open Scope Z_scope.
Open Scope string_scope.

(** ** shared/schema.ts *)

Module User.
Inductive UserType := client | technician.

Record t := mk {
  id : string;
  userType : option UserType;
  skills : option (list string)
}.
End User.

#[global] Instance UserType_eq_dec : EqDecision User.UserType.
Proof. solve_decision. Defined.

Module ServiceRequest.
(** A row of [service_requests].  [status] is a [text] column: the
    five-member union is a compile-time annotation, the column holds any
    string.  Timestamps are milliseconds. *)
Record t := mk {
  id : string;
  clientId : string;
  technicianId : option string;
  serviceType : string;
  description : string;
  location : string;
  status : string;
  quotedPrice : option Z;
  technicianNotes : option string;
  images : option (list string);
  createdAt : Z;
  updatedAt : Z
}.
End ServiceRequest.

Module Payment.
Inductive Status := pending | succeeded | failed.

Record t := mk {
  id : string;
  serviceRequestId : string;
  amount : Z;
  stripePaymentIntentId : string;
  status : Status;
  createdAt : Z
}.
End Payment.

#[global] Instance PaymentStatus_eq_dec : EqDecision Payment.Status.
Proof. solve_decision. Defined.

(** The JSON object a route receives for a request.  It has the members
    of [Partial<InsertServiceRequest>]: every field may be absent ([None]);
    a nullable column may also be given as [null] ([Some None]).  The
    routes take [req.body] as it comes, so the object may also carry the
    two columns that type leaves out and the client can name: [id], and
    [createdAt], held as the JSON text the caller sent.  (A member
    [updatedAt] is overwritten before it is used, and a member that names
    no column is ignored.)  [mk] builds an object without [id] and
    [createdAt], which is what the pages of the client send. *)
Module Partial.
Record t := make {
  id : option string;
  createdAt : option string;
  clientId : option string;
  technicianId : option (option string);
  serviceType : option string;
  description : option string;
  location : option string;
  status : option string;
  quotedPrice : option (option Z);
  technicianNotes : option (option string);
  images : option (option (list string))
}.
Abbreviation mk := (make None None).
End Partial.

(** [InsertServiceRequest]: the output type of [insertServiceRequestSchema]
    (id, createdAt and updatedAt omitted). *)
Module Insert.
Record t := mk {
  clientId : string;
  technicianId : option string;
  serviceType : string;
  description : string;
  location : string;
  status : option string;
  quotedPrice : option Z;
  technicianNotes : option string;
  images : option (option (list string))
}.
End Insert.

Module InsertPayment.
Record t := mk {
  serviceRequestId : string;
  amount : Z;
  stripePaymentIntentId : string;
  status : option Payment.Status
}.
End InsertPayment.

(** [insertServiceRequestSchema.parse]: the three [notNull] columns without
    a default must be present; [None] stands for the ZodError.  The members
    [id] and [createdAt], which the schema omits, are stripped. *)
Definition insertServiceRequestSchema_parse (b : Partial.t) : option Insert.t :=
  match Partial.clientId b, Partial.serviceType b,
        Partial.description b, Partial.location b with
  | Some c, Some ty, Some d, Some l =>
      Some (Insert.mk c (default None (Partial.technicianId b)) ty d l
              (Partial.status b)
              (default None (Partial.quotedPrice b))
              (default None (Partial.technicianNotes b))
              (Partial.images b))
  | _, _, _, _ => None
  end.

(** ** JavaScript strings *)

(** A [string] holds the UTF-8 encoding of a text, as a JSON body carries
    it.  [s.length] in JavaScript is the number of UTF-16 code units of
    the text: one for every character below U+10000, that is for a byte
    below 0x80 and for the lead byte of a sequence of two or three bytes,
    two for a character from U+10000 on, whose sequence of four bytes
    starts with a byte from 0xF0 on, and none for a continuation byte
    (0x80 to 0xBF).  (A text with an unpaired surrogate has no UTF-8
    encoding and is not covered.) *)
Definition utf16_units (b : Ascii.ascii) : nat :=
  let n := Ascii.N_of_ascii b in
  if (n <? 128)%N then 1%nat
  else if (n <? 192)%N then 0%nat
  else if (n <? 240)%N then 1%nat
  else 2%nat.

Fixpoint js_length (s : string) : nat :=
  match s with
  | EmptyString => 0%nat
  | String b s' => (utf16_units b + js_length s')%nat
  end.

(** ** The database *)

Record Db := mkDb {
  users : list User.t;
  serviceRequests : list ServiceRequest.t;
  payments : list Payment.t
}.

(** The range of an [integer] column. *)
Definition int4 (z : Z) : Prop := -2147483648 <= z <= 2147483647.

#[global] Instance int4_dec z : Decision (int4 z).
Proof. unfold int4. apply _. Defined.

(** Foreign key [references(() => users.id)]. *)
Definition references_users (db : Db) (uid : string) : Prop :=
  uid ∈ (User.id <$> users db).

#[global] Instance references_users_dec db uid : Decision (references_users db uid).
Proof. unfold references_users. apply _. Defined.

Definition opt_ok {A} (P : A → Prop) (o : option A) : Prop :=
  match o with Some a => P a | None => True end.

#[global] Instance opt_ok_dec {A} (P : A → Prop) `{∀ a, Decision (P a)} o :
  Decision (opt_ok P o).
Proof. destruct o; simpl; apply _. Defined.

(** ** server/storage.ts: [DbStorage] *)

Module DbStorage.

Definition getUser (db : Db) (id : string) : option User.t :=
  head (filter (λ u, User.id u = id) (users db)).

Definition getServiceRequest (db : Db) (id : string) : option ServiceRequest.t :=
  head (filter (λ r, ServiceRequest.id r = id) (serviceRequests db)).

(** [desc(serviceRequests.createdAt)] *)
Definition desc_createdAt (a b : ServiceRequest.t) : Prop :=
  ServiceRequest.createdAt b <= ServiceRequest.createdAt a.

#[global] Instance desc_createdAt_dec a b : Decision (desc_createdAt a b).
Proof. unfold desc_createdAt. apply _. Defined.

Definition getServiceRequestsByClient (db : Db) (clientId : string)
  : list ServiceRequest.t :=
  merge_sort desc_createdAt
    (filter (λ r, ServiceRequest.clientId r = clientId) (serviceRequests db)).

Definition getServiceRequestsByTechnician (db : Db) (technicianId : string)
  : list ServiceRequest.t :=
  merge_sort desc_createdAt
    (filter (λ r, ServiceRequest.technicianId r = Some technicianId)
       (serviceRequests db)).

(** [skills] is [None] when the argument is omitted. *)
Definition getAvailableServiceRequests (db : Db) (skills : option (list string))
  : list ServiceRequest.t :=
  let query :=
    filter (λ r, ServiceRequest.status r = "pending"
                 ∧ ServiceRequest.technicianId r = None)
      (serviceRequests db) in
  let results := merge_sort desc_createdAt query in
  match skills with
  | Some (s :: ss) =>
      filter (λ req, ServiceRequest.serviceType req ∈ s :: ss) results
  | _ => results
  end.

(** [insert(serviceRequests).values(request).returning()]; [uuid] and
    [now] are the column defaults the database computes.  [None] when
    the insert violates a constraint and the driver throws. *)
Definition createServiceRequest (db : Db) (request : Insert.t)
    (uuid : string) (now : Z) : option (ServiceRequest.t * Db) :=
  if decide ((uuid ∉ ServiceRequest.id <$> serviceRequests db)
             ∧ references_users db (Insert.clientId request)
             ∧ opt_ok (references_users db) (Insert.technicianId request)
             ∧ opt_ok int4 (Insert.quotedPrice request))
  then
    let row := ServiceRequest.mk uuid
      (Insert.clientId request)
      (Insert.technicianId request)
      (Insert.serviceType request)
      (Insert.description request)
      (Insert.location request)
      (default "pending" (Insert.status request))
      (Insert.quotedPrice request)
      (Insert.technicianNotes request)
      (default (Some []) (Insert.images request))
      now now in
    Some (row, mkDb (users db) (serviceRequests db ++ [row]) (payments db))
  else None.

(** [{ ...updates, updatedAt: new Date() }] applied to one row: every
    member of the object that names a column is written, the primary key
    included.  (An object with a [createdAt] member never gets this far,
    see [updateServiceRequest].) *)
Definition set_row (updates : Partial.t) (now : Z) (r : ServiceRequest.t)
  : ServiceRequest.t :=
  ServiceRequest.mk
    (default (ServiceRequest.id r) (Partial.id updates))
    (default (ServiceRequest.clientId r) (Partial.clientId updates))
    (default (ServiceRequest.technicianId r) (Partial.technicianId updates))
    (default (ServiceRequest.serviceType r) (Partial.serviceType updates))
    (default (ServiceRequest.description r) (Partial.description updates))
    (default (ServiceRequest.location r) (Partial.location updates))
    (default (ServiceRequest.status r) (Partial.status updates))
    (default (ServiceRequest.quotedPrice r) (Partial.quotedPrice updates))
    (default (ServiceRequest.technicianNotes r) (Partial.technicianNotes updates))
    (default (ServiceRequest.images r) (Partial.images updates))
    (ServiceRequest.createdAt r)
    now.

Definition update_where (id : string) (updates : Partial.t) (now : Z)
    (r : ServiceRequest.t) : ServiceRequest.t :=
  if decide (ServiceRequest.id r = id) then set_row updates now r else r.

(** A new primary key for the request [id]: it must not be the key of
    another request, and no payment may reference the request
    ([payments.serviceRequestId] references [service_requests.id] with no
    action on update).  Writing the key the row already has changes
    nothing. *)
Definition rekey_ok (db : Db) (id new : string) : Prop :=
  new = id
  ∨ ((new ∉ ServiceRequest.id <$> serviceRequests db)
     ∧ (id ∉ Payment.serviceRequestId <$> payments db)).

#[global] Instance rekey_ok_dec db id new : Decision (rekey_ok db id new).
Proof. unfold rekey_ok. apply _. Defined.

(** The constraints an update of the request [id] with the supplied
    columns can violate. *)
Definition update_ok (db : Db) (id : string) (updates : Partial.t) : Prop :=
  opt_ok (rekey_ok db id) (Partial.id updates)
  ∧ opt_ok (references_users db) (Partial.clientId updates)
  ∧ opt_ok (opt_ok (references_users db)) (Partial.technicianId updates)
  ∧ opt_ok (opt_ok int4) (Partial.quotedPrice updates).

#[global] Instance update_ok_dec db id updates : Decision (update_ok db id updates).
Proof. unfold update_ok. apply _. Defined.

(** [update(serviceRequests).set({...}).where(eq(id)).returning()], then
    [result[0]].  [None] when the call throws: the timestamp column encodes
    its value with [toISOString], which no JSON value has, so an object
    with a [createdAt] member throws while the statement is built; the
    database throws on a violated constraint. *)
Definition updateServiceRequest (db : Db) (id : string) (updates : Partial.t)
    (now : Z) : option (option ServiceRequest.t * Db) :=
  if decide (is_Some (Partial.createdAt updates)) then None
  else
    let hits := filter (λ r, ServiceRequest.id r = id) (serviceRequests db) in
    match hits with
    | [] => Some (None, db)
    | _ :: _ =>
        if decide (update_ok db id updates) then
          let rows := update_where id updates now <$> serviceRequests db in
          Some (head (set_row updates now <$> hits),
                mkDb (users db) rows (payments db))
        else None
    end.

Definition createPayment (db : Db) (payment : InsertPayment.t)
    (uuid : string) (now : Z) : option (Payment.t * Db) :=
  if decide ((uuid ∉ Payment.id <$> payments db)
             ∧ InsertPayment.serviceRequestId payment
                 ∈ (ServiceRequest.id <$> serviceRequests db)
             ∧ int4 (InsertPayment.amount payment))
  then
    let row := Payment.mk uuid
      (InsertPayment.serviceRequestId payment)
      (InsertPayment.amount payment)
      (InsertPayment.stripePaymentIntentId payment)
      (default Payment.pending (InsertPayment.status payment))
      now in
    Some (row, mkDb (users db) (serviceRequests db) (payments db ++ [row]))
  else None.

(** [select().from(payments).where(eq(serviceRequestId)).limit(1)]: one
    of the payments of the request, the one the scan meets first.  Which
    one that is when the request has several is not fixed by the code: the
    database may scan the rows in another order once one of them has been
    updated.  Here it is the first of the list. *)
Definition getPaymentByServiceRequest (db : Db) (serviceRequestId : string)
  : option Payment.t :=
  head (filter (λ p, Payment.serviceRequestId p = serviceRequestId) (payments db)).

Definition set_payment_status (id : string) (status : Payment.Status)
    (p : Payment.t) : Payment.t :=
  if decide (Payment.id p = id)
  then Payment.mk (Payment.id p) (Payment.serviceRequestId p) (Payment.amount p)
         (Payment.stripePaymentIntentId p) status (Payment.createdAt p)
  else p.

(** [update(payments).set({ status }).where(eq(payments.id, id))]; the
    updated row is kept at the place of the old one in the list. *)
Definition updatePaymentStatus (db : Db) (id : string) (status : Payment.Status)
  : option Payment.t * Db :=
  let rows := set_payment_status id status <$> payments db in
  (head (filter (λ p, Payment.id p = id) rows),
   mkDb (users db) (serviceRequests db) rows).

Definition getAllServiceRequests (db : Db) : list ServiceRequest.t :=
  merge_sort desc_createdAt (serviceRequests db).

End DbStorage.

(** ** The payment processor *)

Module Stripe.
Record PaymentIntent := mkIntent {
  id : string;
  client_secret : option string;
  status : string
}.

Record Metadata := mkMetadata {
  serviceRequestId : string;
  clientId : string;
  technicianId : string
}.

Record CreateParams := mkParams {
  amount : Z;
  currency : string;
  metadata : Metadata
}.

(** [stripe.paymentIntents]; [None] when the call throws. *)
Record t := mk {
  paymentIntents_create : CreateParams → option PaymentIntent;
  paymentIntents_retrieve : string → option PaymentIntent
}.
End Stripe.

(** ** server/routes.ts *)

Module Routes.
Import DbStorage.

(** [res.json(body)] or [res.status(code).json({ message })]. *)
Inductive Response (A : Type) :=
| json (body : A)
| status_json (code : Z) (message : string).
Arguments json {A} body.
Arguments status_json {A} code message.

Definition code_of {A} (r : Response A) : Z :=
  match r with json _ => 200 | status_json c _ => c end.

(** Body of [POST /api/technician/jobs]. *)
Record Job := mkJob {
  job_serviceType : option string;
  job_description : option string;
  job_location : option string
}.

(** [z.string().min(n)]: at least [n] UTF-16 code units. *)
Definition min_length (n : nat) (s : string) : Prop := (n ≤ js_length s)%nat.

#[global] Instance min_length_dec n s : Decision (min_length n s).
Proof. unfold min_length. apply _. Defined.

Definition minimalSchema_parse (b : Job) : option (string * string * string) :=
  match job_serviceType b, job_description b, job_location b with
  | Some ty, Some d, Some l =>
      if decide (min_length 1 ty ∧ min_length 10 d ∧ min_length 3 l)
      then Some (ty, d, l) else None
  | _, _, _ => None
  end.

(** [POST /api/technician/jobs] *)
Definition post_technician_jobs (db : Db) (userId : string) (body : Job)
    (uuid : string) (now : Z) : Response ServiceRequest.t * Db :=
  match getUser db userId with
  | Some user =>
      if decide (User.userType user = Some User.technician) then
        match minimalSchema_parse body with
        | None => (status_json 400 "Invalid job data", db)
        | Some (ty, d, l) =>
            match createServiceRequest db
                    (Insert.mk userId (Some userId) ty d l (Some "pending")
                       None None None) uuid now with
            | Some (created, db') => (json created, db')
            | None => (status_json 500 "Failed to create job", db)
            end
        end
      else (status_json 403 "Access denied. Technician role required.", db)
  | None => (status_json 403 "Access denied. Technician role required.", db)
  end.

(** [{ ...req.body, clientId: userId }] *)
Definition with_clientId (body : Partial.t) (userId : string) : Partial.t :=
  Partial.make (Partial.id body) (Partial.createdAt body)
    (Some userId) (Partial.technicianId body) (Partial.serviceType body)
    (Partial.description body) (Partial.location body) (Partial.status body)
    (Partial.quotedPrice body) (Partial.technicianNotes body) (Partial.images body).

(** [POST /api/service-requests] *)
Definition post_service_requests (db : Db) (userId : string) (body : Partial.t)
    (uuid : string) (now : Z) : Response ServiceRequest.t * Db :=
  if decide (userId = "") then (status_json 401 "Unauthorized", db)
  else
    match insertServiceRequestSchema_parse (with_clientId body userId) with
    | None => (status_json 400 "Invalid request data", db)
    | Some data =>
        match createServiceRequest db data uuid now with
        | Some (serviceRequest, db') => (json serviceRequest, db')
        | None => (status_json 500 "Failed to create service request", db)
        end
    end.

(** [GET /api/service-requests/available] *)
Definition get_available (db : Db) (userId : string)
  : Response (list ServiceRequest.t) :=
  match getUser db userId with
  | Some user =>
      if decide (User.userType user = Some User.technician) then
        json (getAvailableServiceRequests db
                (Some (default [] (User.skills user))))
      else status_json 403 "Access denied. Technician role required."
  | None => status_json 403 "Access denied. Technician role required."
  end.

(** [PATCH /api/service-requests/:id] *)
Definition patch_service_request (db : Db) (userId : string) (id : string)
    (updates : Partial.t) (now : Z)
  : Response (option ServiceRequest.t) * Db :=
  match getServiceRequest db id with
  | None => (status_json 404 "Service request not found", db)
  | Some request =>
      match getUser db userId with
      | None => (status_json 404 "User not found", db)
      | Some user =>
          if decide (ServiceRequest.clientId request ≠ userId
                     ∧ ServiceRequest.technicianId request ≠ Some userId)
          then (status_json 403 "Access denied", db)
          else
            match updateServiceRequest db id updates now with
            | Some (updated, db') => (json updated, db')
            | None => (status_json 500 "Failed to update service request", db)
            end
      end
  end.

(** A JavaScript number or null used as a condition: [!request.quotedPrice]. *)
Definition falsy (q : option Z) : Prop :=
  match q with None => True | Some z => z = 0 end.

#[global] Instance falsy_dec q : Decision (falsy q).
Proof. destruct q; simpl; apply _. Defined.

Record IntentCreated := mkIntentCreated {
  clientSecret : option string;
  paymentId : string
}.

(** [POST /api/payments/create-intent] *)
Definition post_create_intent (db : Db) (stripe : Stripe.t)
    (serviceRequestId : string) (uuid : string) (now : Z)
  : Response IntentCreated * Db :=
  match getServiceRequest db serviceRequestId with
  | None => (status_json 404 "Service request not found", db)
  | Some request =>
      if decide (ServiceRequest.status request ≠ "completed") then
        (status_json 400 "Service request must be completed before payment", db)
      else if decide (falsy (ServiceRequest.quotedPrice request)) then
        (status_json 400 "No quoted price available", db)
      else
        let existingPayment := getPaymentByServiceRequest db serviceRequestId in
        if decide (Payment.status <$> existingPayment = Some Payment.succeeded) then
          (status_json 400 "Payment already completed", db)
        else
          let price := default 0 (ServiceRequest.quotedPrice request) in
          match Stripe.paymentIntents_create stripe
                  (Stripe.mkParams (price * 100) "usd"
                     (Stripe.mkMetadata serviceRequestId
                        (ServiceRequest.clientId request)
                        (default "" (ServiceRequest.technicianId request)))) with
          | None => (status_json 500 "Failed to create payment intent", db)
          | Some paymentIntent =>
              match createPayment db
                      (InsertPayment.mk serviceRequestId price
                         (Stripe.id paymentIntent) (Some Payment.pending))
                      uuid now with
              | None => (status_json 500 "Failed to create payment intent", db)
              | Some (payment, db') =>
                  (json (mkIntentCreated (Stripe.client_secret paymentIntent)
                           (Payment.id payment)), db')
              end
          end
  end.

(** Body of [POST /api/payments/confirm]: the two members the handler
    destructures, and whatever else the client put in the object. *)
Record ConfirmBody := mkConfirmBody {
  body_paymentId : string;
  body_paymentIntentId : string;
  body_rest : list (string * string)
}.

Record Confirmed := mkConfirmed {
  success : bool;
  message : string
}.

(** [POST /api/payments/confirm] *)
Definition post_confirm (db : Db) (stripe : Stripe.t) (body : ConfirmBody)
  : Response Confirmed * Db :=
  match Stripe.paymentIntents_retrieve stripe (body_paymentIntentId body) with
  | None => (status_json 500 "Failed to confirm payment", db)
  | Some paymentIntent =>
      if decide (Stripe.status paymentIntent = "succeeded") then
        let '(_, db') := updatePaymentStatus db (body_paymentId body)
                           Payment.succeeded in
        (json (mkConfirmed true "Payment confirmed"), db')
      else (json (mkConfirmed false "Payment not yet completed"), db)
  end.

End Routes.

(** ** client/src/pages/request-details.tsx *)

Module RequestDetails.

(** [acceptJobMutation]: [{ technicianId: user?.id, status: 'accepted' }];
    an undefined member is dropped by JSON serialisation. *)
Definition acceptJobMutation (user : option User.t) : Partial.t :=
  Partial.mk None (Some ∘ User.id <$> user) None None None
    (Some "accepted") None None None.

(** [updateStatusMutation]: [{ status }] *)
Definition updateStatusMutation (status : string) : Partial.t :=
  Partial.mk None None None None None (Some status) None None None.

(** [completeJobMutation]: [quotedPrice] is the value of
    [parseInt(quotedPrice)], [None] for NaN, which is serialised as null. *)
Definition completeJobMutation (quotedPrice : option Z) (technicianNotes : string)
  : Partial.t :=
  Partial.mk None None None None None (Some "completed")
    (Some quotedPrice) (Some (Some technicianNotes)) None.

Definition isTechnician (user : option User.t) : Prop :=
  user ≫= User.userType = Some User.technician.

Definition isMyJob (user : option User.t) (request : ServiceRequest.t) : Prop :=
  match user with
  | Some u => ServiceRequest.technicianId request = Some (User.id u)
  | None => False
  end.

(** The condition under which the page renders the accept button. *)
Definition accept_button (user : option User.t) (request : ServiceRequest.t) : Prop :=
  isTechnician user ∧ ¬ isMyJob user request
  ∧ ServiceRequest.status request = "pending".

(** The submit button of the completion dialog is disabled while the
    price input is the empty string. *)
Definition complete_submit_enabled (quotedPriceInput : string) : Prop :=
  quotedPriceInput ≠ "".

End RequestDetails.

(** ** The API as a transition system *)

(** One call, by the authenticated caller [userId], of one of the five
    routes that write the tables of requests and payments, with the values
    the environment supplies to it.  The two payment routes never read the
    caller's identity.  (The routes that write the table of users, signup
    and the profile update, are in [Auth] below; they touch neither
    requests nor payments.) *)
Inductive Op :=
| CreateRequest (userId : string) (body : Partial.t) (uuid : string) (now : Z)
| CreateJob (userId : string) (body : Routes.Job) (uuid : string) (now : Z)
| Patch (userId : string) (id : string) (updates : Partial.t) (now : Z)
| CreateIntent (userId : string) (stripe : Stripe.t) (serviceRequestId : string)
    (uuid : string) (now : Z)
| Confirm (userId : string) (stripe : Stripe.t) (body : Routes.ConfirmBody).

Definition step (db : Db) (op : Op) : Db :=
  match op with
  | CreateRequest userId body uuid now =>
      (Routes.post_service_requests db userId body uuid now).2
  | CreateJob userId body uuid now =>
      (Routes.post_technician_jobs db userId body uuid now).2
  | Patch userId id updates now =>
      (Routes.patch_service_request db userId id updates now).2
  | CreateIntent _ stripe serviceRequestId uuid now =>
      (Routes.post_create_intent db stripe serviceRequestId uuid now).2
  | Confirm _ stripe body =>
      (Routes.post_confirm db stripe body).2
  end.

(** The HTTP status of the answer to a call. *)
Definition answer (db : Db) (op : Op) : Z :=
  match op with
  | CreateRequest userId body uuid now =>
      Routes.code_of (Routes.post_service_requests db userId body uuid now).1
  | CreateJob userId body uuid now =>
      Routes.code_of (Routes.post_technician_jobs db userId body uuid now).1
  | Patch userId id updates now =>
      Routes.code_of (Routes.patch_service_request db userId id updates now).1
  | CreateIntent _ stripe serviceRequestId uuid now =>
      Routes.code_of (Routes.post_create_intent db stripe serviceRequestId uuid now).1
  | Confirm _ stripe body =>
      Routes.code_of (Routes.post_confirm db stripe body).1
  end.

Definition run (db : Db) (ops : list Op) : Db := foldl step db ops.

(** The calls of the two routes that insert a request, and of the route
    that inserts a payment. *)
Definition creates_request (op : Op) : Prop :=
  match op with
  | CreateRequest _ _ _ _ | CreateJob _ _ _ _ => True
  | _ => False
  end.

Definition opens_payment (op : Op) : Prop :=
  match op with
  | CreateIntent _ _ _ _ _ => True
  | _ => False
  end.

(** ** Properties of the stored data that the specification speaks of *)

(** technicianId is non-null exactly when the status is neither pending
    nor cancelled. *)
Definition assigned_iff_active (r : ServiceRequest.t) : Prop :=
  ServiceRequest.technicianId r ≠ None
  ↔ (ServiceRequest.status r ≠ "pending" ∧ ServiceRequest.status r ≠ "cancelled").

(** technicianId is null exactly when the status is pending. *)
Definition unassigned_iff_pending (r : ServiceRequest.t) : Prop :=
  ServiceRequest.technicianId r = None ↔ ServiceRequest.status r = "pending".

(** The primary key of [service_requests]. *)
Definition unique_ids (db : Db) : Prop :=
  NoDup (ServiceRequest.id <$> serviceRequests db).

Definition lifecycle_invariant (db : Db) : Prop :=
  unique_ids db ∧ Forall assigned_iff_active (serviceRequests db).

Definition status_of (db : Db) (id : string) : option string :=
  ServiceRequest.status <$> DbStorage.getServiceRequest db id.

Definition terminal (s : string) : Prop := s = "completed" ∨ s = "cancelled".

(** The closed set of status values of the schema's type annotation. *)
Definition status_enum : list string :=
  ["pending"; "accepted"; "in_progress"; "completed"; "cancelled"].

(** The calls the pages of the client make along the life of a request:
    creation without technician or status, the accept payload for the
    caller, a start of an accepted request, a completion of a request in
    progress, and the payment calls. *)
Definition lifecycle_call (db : Db) (op : Op) : Prop :=
  match op with
  | CreateRequest _ body _ _ =>
      default None (Partial.technicianId body) = None
      ∧ default "pending" (Partial.status body) = "pending"
  | CreateJob _ _ _ _ => False
  | Patch userId id updates _ =>
      (∃ user, User.id user = userId
               ∧ updates = RequestDetails.acceptJobMutation (Some user))
      ∨ (status_of db id = Some "accepted"
         ∧ updates = RequestDetails.updateStatusMutation "in_progress")
      ∨ (status_of db id = Some "in_progress"
         ∧ ∃ price notes, updates = RequestDetails.completeJobMutation price notes)
  | CreateIntent _ _ _ _ _ => True
  | Confirm _ _ _ => True
  end.

(** The generic update is applied: the request and the caller's user row
    exist, the caller is the request's client or its technician, the body
    has no [createdAt] member and the supplied columns pass the constraints
    of the table. *)
Definition patch_applies (db : Db) (userId rid : string) (upd : Partial.t) : Prop :=
  ∃ request, DbStorage.getServiceRequest db rid = Some request
    ∧ is_Some (DbStorage.getUser db userId)
    ∧ (ServiceRequest.clientId request = userId
       ∨ ServiceRequest.technicianId request = Some userId)
    ∧ Partial.createdAt upd = None
    ∧ DbStorage.update_ok db rid upd.

(** Payments of one request that have reached [succeeded]. *)
Definition succeeded_for (db : Db) (serviceRequestId : string) : list Payment.t :=
  filter (λ p, Payment.serviceRequestId p = serviceRequestId
               ∧ Payment.status p = Payment.succeeded) (payments db).

(** ** Concrete data used in the examples *)

Module Scenario.
Import RequestDetails.

Definition alice : User.t := User.mk "C1" (Some User.client) (Some []).
Definition tina : User.t := User.mk "T1" (Some User.technician) (Some ["Plumber"]).
Definition tom : User.t := User.mk "T2" (Some User.technician) (Some ["Electrician"]).

Definition db0 : Db := mkDb [alice; tina; tom] [] [].

Definition leak : Routes.Job :=
  Routes.mkJob (Some "Plumber") (Some "Kitchen sink leaks") (Some "Cairo").

(** A processor that opens an intent [ref] for any amount of at least one
    cent and refuses other amounts. *)
Definition stripe_opens (ref secret : string) : Stripe.t :=
  Stripe.mk
    (λ params, if decide (1 <= Stripe.amount params)
               then Some (Stripe.mkIntent ref (Some secret) "requires_payment_method")
               else None)
    (λ _, None).

(** A processor on which exactly the intents in [paid] have succeeded. *)
Definition stripe_paid (paid : list string) : Stripe.t :=
  Stripe.mk
    (λ _, None)
    (λ ref, Some (Stripe.mkIntent ref None
                    (if decide (ref ∈ paid) then "succeeded"
                     else "requires_payment_method"))).

(** Tina records a job of her own. *)
Definition created : Db := step db0 (CreateJob "T1" leak "r1" 1000).

(** She sends the accept, start and complete payloads for it. *)
Definition accepted : Db :=
  step created (Patch "T1" "r1" (acceptJobMutation (Some tina)) 2000).
Definition started : Db :=
  step accepted (Patch "T1" "r1" (updateStatusMutation "in_progress") 3000).
Definition completed : Db :=
  step started (Patch "T1" "r1" (completeJobMutation (Some 120) "Fixed leak") 4000).

(** Two payment intents are opened for the completed request. *)
Definition two_intents : list Op :=
  [ CreateIntent "T1" (stripe_opens "pi_1" "secret_1") "r1" "p1" 5000;
    CreateIntent "T1" (stripe_opens "pi_2" "secret_2") "r1" "p2" 5001 ].

(** Both are paid at the processor and confirmed. *)
Definition both_confirmed : list Op :=
  two_intents ++
  [ Confirm "T1" (stripe_paid ["pi_1"; "pi_2"]) (Routes.mkConfirmBody "p1" "pi_1" []);
    Confirm "T1" (stripe_paid ["pi_1"; "pi_2"]) (Routes.mkConfirmBody "p2" "pi_2" []) ].

(** Only the second one is paid and confirmed. *)
Definition second_confirmed : list Op :=
  two_intents ++
  [ Confirm "T1" (stripe_paid ["pi_2"]) (Routes.mkConfirmBody "p2" "pi_2" []) ].

(** A request in progress completed with price [q] and summary [s]. *)
Definition complete_with (q : option Z) (s : string) : Op :=
  Patch "T1" "r1" (completeJobMutation q s) 4000.

(** Alice posts a request from the form; three requests for the listing. *)
Definition form (ty : string) : Partial.t :=
  Partial.mk None None (Some ty) (Some "Please come soon") (Some "Giza")
    None None None None.

Definition posted : Db :=
  run db0 [ CreateRequest "C1" (form "Plumber") "a1" 100;
            CreateRequest "C1" (form "Electrician") "a2" 200;
            CreateRequest "C1" (form "plumber") "a3" 300 ].
(** A generic update that names another id, another client, another
    service type and a status outside the enumeration. *)
Definition takeover : Op :=
  Patch "T1" "r1"
    (Partial.make (Some "r9") None (Some "C1") None (Some "Painter") None None
       (Some "bogus") None None None) 2000.

(** A status-only update that reopens a request. *)
Definition reopen : Op := Patch "T1" "r1" (updateStatusMutation "pending") 9000.

(** Tina sends the accept payload for the job she already holds. *)
Definition accept_again : Op :=
  Patch "T1" "r1" (acceptJobMutation (Some tina)) 2500.

(** Tom sends the accept payload for a request of Alice that nobody holds. *)
Definition tom_accepts : Op :=
  Patch "T2" "a2" (acceptJobMutation (Some tom)) 400.
(** A processor that opens an intent for whatever amount it is given. *)
Definition stripe_lenient (ref secret : string) : Stripe.t :=
  Stripe.mk
    (λ _, Some (Stripe.mkIntent ref (Some secret) "requires_payment_method"))
    (λ _, None).

(** The request in progress completed with a negative price. *)
Definition underpriced : Db := step started (complete_with (Some (-5)) "Refund").

(** Tom confirms payment p1 with the reference of the other intent, the
    only one that is paid. *)
Definition tom_confirms : Op :=
  Confirm "T2" (stripe_paid ["pi_2"]) (Routes.mkConfirmBody "p1" "pi_2" []).
(** Alice sends a status-only update for her pending request. *)
Definition alice_starts : Op :=
  Patch "C1" "a1" (updateStatusMutation "in_progress") 500.

(** The letter e with an acute accent (U+00E9, two bytes) and a smiling
    face (U+1F600, four bytes). *)
Definition e_acute : string :=
  String (Ascii.ascii_of_nat 195) (String (Ascii.ascii_of_nat 169) EmptyString).
Definition smiley : string :=
  String (Ascii.ascii_of_nat 240) (String (Ascii.ascii_of_nat 159)
    (String (Ascii.ascii_of_nat 152) (String (Ascii.ascii_of_nat 128) EmptyString))).
End Scenario.

(** ** server/routes.ts: the read routes *)

Module Queries.
Import DbStorage Routes.

(** [GET /api/public/alljobs] *)
Definition get_public_alljobs (db : Db) : Response (list ServiceRequest.t) :=
  json (getAllServiceRequests db).

(** [map.set(key, value)] on a JavaScript [Map], kept as the list of its
    entries in insertion order: a key already present keeps its place and
    takes the new value, a new key goes to the end. *)
Fixpoint map_set {V} (m : list (string * V)) (key : string) (value : V)
  : list (string * V) :=
  match m with
  | [] => [(key, value)]
  | (k, v) :: m' =>
      if decide (k = key) then (key, value) :: m'
      else (k, v) :: map_set m' key value
  end.

(** [for (const r of rows) map.set(r.id, r)] then [Array.from(map.values())] *)
Definition unique_by_id (rows : list ServiceRequest.t) : list ServiceRequest.t :=
  (foldl (λ m r, map_set m (ServiceRequest.id r) r) [] rows).*2.

(** [GET /api/my/jobs] *)
Definition get_my_jobs (db : Db) (userId : string)
  : Response (list ServiceRequest.t) :=
  match getUser db userId with
  | None => status_json 404 "User not found"
  | Some user =>
      let asClient := getServiceRequestsByClient db userId in
      let asTech := getServiceRequestsByTechnician db userId in
      json (unique_by_id (asClient ++ asTech))
  end.

(** [GET /api/service-requests] *)
Definition get_service_requests (db : Db) (userId : string)
  : Response (list ServiceRequest.t) :=
  match getUser db userId with
  | None => status_json 404 "User not found"
  | Some user =>
      match User.userType user with
      | Some User.client => json (getServiceRequestsByClient db userId)
      | Some User.technician => json (getServiceRequestsByTechnician db userId)
      | None => json []
      end
  end.

(** [GET /api/service-requests/:id] *)
Definition get_service_request (db : Db) (id : string) : Response ServiceRequest.t :=
  match getServiceRequest db id with
  | None => status_json 404 "Service request not found"
  | Some request => json request
  end.

(** [GET /api/payments/:serviceRequestId] *)
Definition get_payment (db : Db) (serviceRequestId : string)
  : Response (option Payment.t) :=
  json (getPaymentByServiceRequest db serviceRequestId).

End Queries.

(** ** The pages of the client *)

Module Pages.
Import RequestDetails.

(** *** request-details.tsx: the action buttons *)

Definition isClient (user : option User.t) : Prop :=
  user ≫= User.userType = Some User.client.

Definition isMyRequest (user : option User.t) (request : ServiceRequest.t) : Prop :=
  match user with
  | Some u => ServiceRequest.clientId request = User.id u
  | None => False
  end.

(** [button-start-job] *)
Definition button_start_job (user : option User.t) (request : ServiceRequest.t) : Prop :=
  isTechnician user ∧ isMyJob user request
  ∧ ServiceRequest.status request = "accepted".

(** [button-complete-job] *)
Definition button_complete_job (user : option User.t) (request : ServiceRequest.t)
  : Prop :=
  isTechnician user ∧ isMyJob user request
  ∧ ServiceRequest.status request = "in_progress".

(** [button-pay-now] *)
Definition button_pay_now (user : option User.t) (request : ServiceRequest.t) : Prop :=
  isClient user ∧ isMyRequest user request
  ∧ ServiceRequest.status request = "completed"
  ∧ ¬ Routes.falsy (ServiceRequest.quotedPrice request).

(** *** profile.tsx *)

Definition toggleSkill (user_skills : option (list string)) (skill : string)
  : list string :=
  let currentSkills := default [] user_skills in
  if decide (skill ∈ currentSkills)
  then filter (λ s, s ≠ skill) currentSkills
  else currentSkills ++ [skill].

(** *** create-request.tsx: the technician dashboard and the request form *)

Definition skillFiltered (user_skills : option (list string))
    (availableJobs : list ServiceRequest.t) : list ServiceRequest.t :=
  filter (λ job, let skills := default [] user_skills in
                 skills = [] ∨ ServiceRequest.serviceType job ∈ skills)
    availableJobs.

(** The values of the request form. *)
Record RequestForm := mkRequestForm {
  fullName : string;
  phone : string;
  form_serviceType : string;
  form_description : string;
  form_location : string;
  form_images : list string
}.

(** [formSchema] of the request form. *)
Definition formSchema (data : RequestForm) : Prop :=
  Routes.min_length 2 (fullName data)
  ∧ Routes.min_length 6 (phone data)
  ∧ Routes.min_length 1 (form_serviceType data)
  ∧ Routes.min_length 10 (form_description data)
  ∧ Routes.min_length 5 (form_location data).

(** The [payload] that [createRequestMutation] posts. *)
Definition createRequest_payload (data : RequestForm) : Partial.t :=
  Partial.mk None None (Some (form_serviceType data)) (Some (form_description data))
    (Some (form_location data)) None None None (Some (Some (form_images data))).

(** [completeSchema] of the completion dialog of the technician dashboard,
    on integer prices: [z.coerce.number().positive()] and
    [z.string().min(5)]. *)
Definition completeSchema (totalPrice : Z) (summary : string) : Prop :=
  0 < totalPrice ∧ Routes.min_length 5 summary.

(** [createJobSchema] of the dashboard dialog and [formSchema] of
    create-job.tsx, which are the same: the values of the job form. *)
Definition createJobSchema (serviceType description location : string) : Prop :=
  Routes.min_length 1 serviceType
  ∧ Routes.min_length 10 description
  ∧ Routes.min_length 3 location.

(** The body [createJobMutation] posts. *)
Definition createJob_body (serviceType description location : string) : Routes.Job :=
  Routes.mkJob (Some serviceType) (Some description) (Some location).

(** *** The counters of the dashboards *)

Definition count_status (P : string → Prop) `{∀ s, Decision (P s)}
    (jobs : list ServiceRequest.t) : nat :=
  length (filter (λ j, P (ServiceRequest.status j)) jobs).

(** [totals] of the landing page. *)
Record Totals := mkTotals {
  total : nat; pending : nat; accepted : nat; in_progress : nat;
  completed : nat; cancelled : nat
}.

Definition totals (jobs : list ServiceRequest.t) : Totals :=
  mkTotals (length jobs)
    (count_status (λ s, s = "pending") jobs)
    (count_status (λ s, s = "accepted") jobs)
    (count_status (λ s, s = "in_progress") jobs)
    (count_status (λ s, s = "completed") jobs)
    (count_status (λ s, s = "cancelled") jobs).

(** [stats] of the client dashboard. *)
Record ClientStats := mkClientStats {
  cs_total : nat; cs_pending : nat; cs_inProgress : nat; cs_completed : nat
}.

Definition client_stats (requests : list ServiceRequest.t) : ClientStats :=
  mkClientStats (length requests)
    (count_status (λ s, s = "pending") requests)
    (count_status (λ s, s = "in_progress" ∨ s = "accepted") requests)
    (count_status (λ s, s = "completed") requests).

(** *** my-jobs.tsx *)

Inductive Tab := active | completed_tab.

(** [filteredJobs] of the technician's job page. *)
Definition filteredJobs (activeTab : Tab) (myJobs : list ServiceRequest.t)
  : list ServiceRequest.t :=
  match activeTab with
  | active =>
      filter (λ j, ServiceRequest.status j ∈ ["accepted"; "in_progress"]) myJobs
  | completed_tab => filter (λ j, ServiceRequest.status j = "completed") myJobs
  end.

(** [stats] of the technician dashboard. *)
Record TechStats := mkTechStats {
  ts_total : nat; ts_active : nat; ts_completed : nat
}.

Definition tech_stats (myJobs : list ServiceRequest.t) : TechStats :=
  mkTechStats (length myJobs)
    (count_status (λ s, s = "accepted" ∨ s = "in_progress") myJobs)
    (count_status (λ s, s = "completed") myJobs).

End Pages.

(** ** The users table with all its columns *)

(** A full row of [users]; [User.t] above is its columns id, userType and
    skills. *)
Module Account.
Record t := mk {
  id : string;
  email : string;
  firstName : option string;
  lastName : option string;
  profileImageUrl : option string;
  phone : option string;
  userType : option User.UserType;
  passwordHash : option string;
  skills : option (list string);
  bio : option string;
  isAvailable : option bool;
  createdAt : Z;
  updatedAt : option Z
}.

Definition to_user (a : t) : User.t := User.mk (id a) (userType a) (skills a).
End Account.

(** [UpsertUser], the insert type of [users]: id and email are required,
    a nullable column may be absent ([None]), null ([Some None]) or given. *)
Module UpsertUser.
Record t := mk {
  id : string;
  email : string;
  firstName : option (option string);
  lastName : option (option string);
  profileImageUrl : option (option string);
  phone : option (option string);
  userType : option (option User.UserType);
  passwordHash : option (option string);
  skills : option (option (list string));
  bio : option (option string);
  isAvailable : option (option bool);
  createdAt : option Z;
  updatedAt : option (option Z)
}.
End UpsertUser.

(** The output of [profileUpdateSchema], the only value [updateUser] is
    called with: every member optional, none nullable. *)
Module ProfileUpdate.
Record t := mk {
  userType : option User.UserType;
  skills : option (list string);
  bio : option string;
  isAvailable : option bool;
  phone : option string;
  firstName : option string;
  lastName : option string;
  profileImageUrl : option string
}.
End ProfileUpdate.

(** ** server/storage.ts: the user operations *)

Module Users.

Definition getUser (accounts : list Account.t) (id : string) : option Account.t :=
  head (filter (λ a, Account.id a = id) accounts).

Definition getUserByEmail (accounts : list Account.t) (email : string)
  : option Account.t :=
  head (filter (λ a, Account.email a = email) accounts).

(** The row [insert(users).values(userData)] proposes. *)
Definition inserted (userData : UpsertUser.t) (now : Z) : Account.t :=
  Account.mk (UpsertUser.id userData) (UpsertUser.email userData)
    (default None (UpsertUser.firstName userData))
    (default None (UpsertUser.lastName userData))
    (default None (UpsertUser.profileImageUrl userData))
    (default None (UpsertUser.phone userData))
    (default None (UpsertUser.userType userData))
    (default None (UpsertUser.passwordHash userData))
    (default (Some []) (UpsertUser.skills userData))
    (default None (UpsertUser.bio userData))
    (default (Some true) (UpsertUser.isAvailable userData))
    (default now (UpsertUser.createdAt userData))
    (default (Some now) (UpsertUser.updatedAt userData)).

(** [set: { ...userData, updatedAt: new Date() }] on the row in conflict. *)
Definition conflict_set (userData : UpsertUser.t) (now : Z) (a : Account.t)
  : Account.t :=
  Account.mk (UpsertUser.id userData) (UpsertUser.email userData)
    (default (Account.firstName a) (UpsertUser.firstName userData))
    (default (Account.lastName a) (UpsertUser.lastName userData))
    (default (Account.profileImageUrl a) (UpsertUser.profileImageUrl userData))
    (default (Account.phone a) (UpsertUser.phone userData))
    (default (Account.userType a) (UpsertUser.userType userData))
    (default (Account.passwordHash a) (UpsertUser.passwordHash userData))
    (default (Account.skills a) (UpsertUser.skills userData))
    (default (Account.bio a) (UpsertUser.bio userData))
    (default (Account.isAvailable a) (UpsertUser.isAvailable userData))
    (default (Account.createdAt a) (UpsertUser.createdAt userData))
    (Some now).

(** [insert ... onConflictDoUpdate({ target: users.id, ... }).returning()].
    [None] when the unique constraint on email is violated and the driver
    throws. *)
Definition upsertUser (accounts : list Account.t) (userData : UpsertUser.t) (now : Z)
  : option (Account.t * list Account.t) :=
  let id := UpsertUser.id userData in
  match filter (λ a, Account.id a = id) accounts with
  | [] =>
      if decide (UpsertUser.email userData ∈ Account.email <$> accounts) then None
      else
        let row := inserted userData now in
        Some (row, (accounts ++ [row])%list)
  | old :: _ =>
      if decide (UpsertUser.email userData
                 ∈ Account.email <$> filter (λ a, Account.id a ≠ id) accounts)
      then None
      else
        let row := conflict_set userData now old in
        Some (row, (λ a, if decide (Account.id a = id)
                         then conflict_set userData now a else a) <$> accounts)
  end.

(** [{ ...updates, updatedAt: new Date() }] applied to one row. *)
Definition set_user (updates : ProfileUpdate.t) (now : Z) (a : Account.t)
  : Account.t :=
  Account.mk (Account.id a) (Account.email a)
    (from_option Some (Account.firstName a) (ProfileUpdate.firstName updates))
    (from_option Some (Account.lastName a) (ProfileUpdate.lastName updates))
    (from_option Some (Account.profileImageUrl a)
       (ProfileUpdate.profileImageUrl updates))
    (from_option Some (Account.phone a) (ProfileUpdate.phone updates))
    (from_option Some (Account.userType a) (ProfileUpdate.userType updates))
    (Account.passwordHash a)
    (from_option Some (Account.skills a) (ProfileUpdate.skills updates))
    (from_option Some (Account.bio a) (ProfileUpdate.bio updates))
    (from_option Some (Account.isAvailable a) (ProfileUpdate.isAvailable updates))
    (Account.createdAt a)
    (Some now).

(** [update(users).set({...}).where(eq(users.id, id)).returning()], then
    [result[0]]. *)
Definition updateUser (accounts : list Account.t) (id : string)
    (updates : ProfileUpdate.t) (now : Z) : option Account.t * list Account.t :=
  let rows := (λ a, if decide (Account.id a = id) then set_user updates now a else a)
                <$> accounts in
  (head (filter (λ a, Account.id a = id) rows), rows).

End Users.

(** ** server/routes.ts: accounts *)

(** What the handlers take from libraries: the email format of the
    validator and the two functions of the password hashing library,
    [hash] with the salt it draws. *)
Record Lib := mkLib {
  is_email : string → bool;
  bcrypt_hash : string → string → string;
  bcrypt_compare : string → string → bool
}.

Module Auth.
Import Users Routes.

Record SignupBody := mkSignup {
  signup_email : string;
  signup_password : string;
  signup_firstName : option string;
  signup_lastName : option string
}.

Record LoginBody := mkLogin {
  login_email : string;
  login_password : string
}.

(** An answer, the users table after the call, and the user id the call
    stored in the session, if it stored one. *)
Definition Outcome : Type := Response Account.t * list Account.t * option string.

(** [POST /api/auth/signup] *)
Definition post_auth_signup (lib : Lib) (accounts : list Account.t)
    (body : SignupBody) (uuid salt : string) (now : Z) : Outcome :=
  if decide (is_email lib (signup_email body) = true
             ∧ min_length 6 (signup_password body)) then
    match getUserByEmail accounts (signup_email body) with
    | Some existing => (status_json 409 "Email already exists", accounts, None)
    | None =>
        let passwordHash := bcrypt_hash lib (signup_password body) salt in
        match upsertUser accounts
                (UpsertUser.mk uuid (signup_email body)
                   (Some (signup_firstName body)) (Some (signup_lastName body))
                   (Some None) None None (Some (Some passwordHash))
                   None None None None None) now with
        | Some (user, accounts') => (json user, accounts', Some (Account.id user))
        | None => (status_json 400 "Invalid signup data", accounts, None)
        end
    end
  else (status_json 400 "Invalid signup data", accounts, None).

(** [!user.passwordHash]: null or the empty string. *)
Definition no_hash (h : option string) : Prop :=
  match h with None => True | Some s => s = "" end.

#[global] Instance no_hash_dec h : Decision (no_hash h).
Proof. destruct h; simpl; apply _. Defined.

(** [POST /api/auth/login] *)
Definition post_auth_login (lib : Lib) (accounts : list Account.t) (body : LoginBody)
  : Outcome :=
  if decide (is_email lib (login_email body) = true
             ∧ min_length 6 (login_password body)) then
    match getUserByEmail accounts (login_email body) with
    | None => (status_json 401 "Invalid email or password", accounts, None)
    | Some user =>
        if decide (no_hash (Account.passwordHash user)) then
          (status_json 401 "Invalid email or password", accounts, None)
        else if bcrypt_compare lib (login_password body)
                  (default "" (Account.passwordHash user)) then
          (json user, accounts, Some (Account.id user))
        else (status_json 401 "Invalid email or password", accounts, None)
    end
  else (status_json 400 "Invalid login data", accounts, None).

(** Body of [PATCH /api/user/profile]: the members of the schema, and the
    names of whatever other members the object has. *)
Record ProfileBody := mkProfileBody {
  profile_updates : ProfileUpdate.t;
  profile_other_keys : list string
}.

(** [PATCH /api/user/profile]; the schema is strict. *)
Definition patch_user_profile (accounts : list Account.t) (userId : string)
    (body : ProfileBody) (now : Z) : Response Account.t * list Account.t :=
  if decide (userId = "") then (status_json 401 "Unauthorized", accounts)
  else if decide (profile_other_keys body = []) then
    match updateUser accounts userId (profile_updates body) now with
    | (Some user, accounts') => (json user, accounts')
    | (None, _) => (status_json 404 "User not found", accounts)
    end
  else (status_json 400 "Invalid profile data", accounts).

End Auth.

(** *** The payloads of the account pages *)

Module AccountPages.

(** onboarding.tsx: [{ userType }] *)
Definition onboarding_payload (userType : User.UserType) : Auth.ProfileBody :=
  Auth.mkProfileBody
    (ProfileUpdate.mk (Some userType) None None None None None None None) [].

(** profile.tsx, [updateSkillsMutation]: [{ skills }] *)
Definition skills_payload (skills : list string) : Auth.ProfileBody :=
  Auth.mkProfileBody
    (ProfileUpdate.mk None (Some skills) None None None None None None) [].

End AccountPages.

(** A toy password library for the examples: every string is an email,
    the hash of a password is the password, whatever the salt. *)
Definition toy_lib : Lib :=
  mkLib (λ _, true) (λ password _, password) (λ password h, bool_decide (password = h)).

(** * Verification *)

Import DbStorage Routes RequestDetails.

(** ** Scenario checks *)

Example created_row :
  serviceRequests Scenario.created =
  [ ServiceRequest.mk "r1" "T1" (Some "T1") "Plumber" "Kitchen sink leaks" "Cairo"
      "pending" None None (Some []) 1000 1000 ].
Proof. vm_compute. reflexivity. Qed.

Example completed_row :
  serviceRequests Scenario.completed =
  [ ServiceRequest.mk "r1" "T1" (Some "T1") "Plumber" "Kitchen sink leaks" "Cairo"
      "completed" (Some 120) (Some "Fixed leak") (Some []) 1000 4000 ].
Proof. vm_compute. reflexivity. Qed.

Example listing_for_plumber :
  ServiceRequest.id <$> getAvailableServiceRequests Scenario.posted (Some ["Plumber"])
  = ["a1"].
Proof. vm_compute. reflexivity. Qed.

Example listing_without_skills :
  ServiceRequest.id <$> getAvailableServiceRequests Scenario.posted (Some [])
  = ["a3"; "a2"; "a1"].
Proof. vm_compute. reflexivity. Qed.

(** The length of a string is counted in UTF-16 code units, not in bytes:
    a location of two accented letters is too short for the job route, and
    a password of three accented letters for signup. *)
Example length_counts_code_units :
  String.length (Scenario.e_acute ++ Scenario.e_acute) = 4%nat
  ∧ js_length (Scenario.e_acute ++ Scenario.e_acute) = 2%nat
  ∧ String.length Scenario.smiley = 4%nat
  ∧ js_length Scenario.smiley = 2%nat
  ∧ js_length "Cairo" = 5%nat.
Proof. by vm_compute. Qed.

Example job_with_two_letter_location_is_refused :
  post_technician_jobs Scenario.db0 "T1"
    (mkJob (Some "Plumber") (Some "Kitchen sink leaks")
       (Some (Scenario.e_acute ++ Scenario.e_acute))) "r1" 1000
  = (status_json 400 "Invalid job data", Scenario.db0).
Proof. by vm_compute. Qed.

Example signup_with_three_letter_password_is_refused :
  Auth.post_auth_signup toy_lib []
    (Auth.mkSignup "a@b.c" (Scenario.e_acute ++ Scenario.e_acute ++ Scenario.e_acute)
       None None) "u1" "salt" 0
  = (status_json 400 "Invalid signup data", [], None).
Proof. by vm_compute. Qed.

(** ** Availability listing *)

#[local] Instance desc_createdAt_total : Total desc_createdAt.
Proof. intros a b. unfold desc_createdAt. lia. Qed.

#[local] Instance desc_createdAt_trans : Transitive desc_createdAt.
Proof. intros a b c. unfold desc_createdAt. lia. Qed.

Lemma StronglySorted_filter {A} (R : relation A) (P : A → Prop)
    `{∀ x, Decision (P x)} (l : list A) :
  StronglySorted R l → StronglySorted R (filter P l).
Proof.
  induction 1 as [|x l Hl IH Hx]; [constructor|].
  rewrite filter_cons. case_decide; [|assumption].
  constructor; [assumption|].
  apply Forall_forall. intros y Hy.
  apply list_elem_of_filter in Hy as [_ Hy].
  rewrite Forall_forall in Hx. auto.
Qed.

(** C4. For every skill set, the listing is sorted by createdAt, newest
    first, and holds exactly the stored requests that are pending with a
    null technicianId and, when the skill set is non-empty, whose
    serviceType is equal to one of the skills; with an empty (or omitted)
    skill set it holds all pending unassigned requests; no request of the
    result has a technician or another status. *)
Theorem available_listing (db : Db) (skills : option (list string)) :
  let res := getAvailableServiceRequests db skills in
  StronglySorted desc_createdAt res
  ∧ res ≡ₚ filter (λ r, (ServiceRequest.status r = "pending"
                          ∧ ServiceRequest.technicianId r = None)
                         ∧ (default [] skills = []
                            ∨ ServiceRequest.serviceType r ∈ default [] skills))
             (serviceRequests db)
  ∧ (default [] skills = [] →
     res ≡ₚ filter (λ r, ServiceRequest.status r = "pending"
                         ∧ ServiceRequest.technicianId r = None)
              (serviceRequests db))
  ∧ (∀ r, r ∈ res →
       r ∈ serviceRequests db
       ∧ ServiceRequest.status r = "pending"
       ∧ ServiceRequest.technicianId r = None).
Proof.
  intros res. subst res. unfold getAvailableServiceRequests.
  set (query := filter _ (serviceRequests db)).
  assert (Hsort : StronglySorted desc_createdAt (merge_sort desc_createdAt query))
    by apply (StronglySorted_merge_sort _).
  assert (Hperm : merge_sort desc_createdAt query ≡ₚ query)
    by apply merge_sort_Permutation.
  assert (Hin : ∀ r, r ∈ query →
            r ∈ serviceRequests db ∧ ServiceRequest.status r = "pending"
            ∧ ServiceRequest.technicianId r = None).
  { intros r Hr. apply list_elem_of_filter in Hr. tauto. }
  destruct skills as [[|s ss]|]; simpl.
  - split; [done|]. split; [|split; [done|]].
    + rewrite Hperm. subst query. apply reflexive_eq.
      apply list_filter_iff. intros r. tauto.
    + intros r Hr. apply Hin. by rewrite <- Hperm.
  - split; [by apply StronglySorted_filter|]. split; [|split; [done|]].
    + rewrite Hperm. subst query. rewrite list_filter_filter.
      apply reflexive_eq, list_filter_iff. intros r.
      split; [intros [? ?]; auto|intros [? [?|?]]; [done|auto]].
    + intros r Hr. apply list_elem_of_filter in Hr as [_ Hr].
      apply Hin. by rewrite <- Hperm.
  - split; [done|]. split; [|split; [done|]].
    + rewrite Hperm. subst query. apply reflexive_eq.
      apply list_filter_iff. intros r. tauto.
    + intros r Hr. apply Hin. by rewrite <- Hperm.
Qed.

(** ** The generic update *)

Lemma update_where_id rid upd now r :
  ServiceRequest.id (update_where rid upd now r)
  = if decide (ServiceRequest.id r = rid)
    then default rid (Partial.id upd) else ServiceRequest.id r.
Proof.
  unfold update_where. case_decide as Hid; [|done].
  simpl. by rewrite Hid.
Qed.

Lemma update_where_hit rid upd now r :
  ServiceRequest.id r = rid → update_where rid upd now r = set_row upd now r.
Proof. intros Hid. unfold update_where. by rewrite decide_True. Qed.

Lemma update_where_miss rid upd now r :
  ServiceRequest.id r ≠ rid → update_where rid upd now r = r.
Proof. intros Hid. unfold update_where. by rewrite decide_False. Qed.

(** The rows found under [k] after an update of [rid'] are the updated
    rows found under [k] before, when the update keeps the key or [k] is
    neither the old nor the new key. *)
Lemma filter_id_update rid rid' upd now (rows : list ServiceRequest.t) :
  default rid' (Partial.id upd) = rid'
  ∨ (rid ≠ rid' ∧ rid ≠ default rid' (Partial.id upd)) →
  filter (λ r, ServiceRequest.id r = rid) (update_where rid' upd now <$> rows)
  = update_where rid' upd now <$> filter (λ r, ServiceRequest.id r = rid) rows.
Proof.
  intros Hkey.
  induction rows as [|r rows IH]; [done|].
  rewrite fmap_cons, !filter_cons, update_where_id, IH.
  destruct (decide (ServiceRequest.id r = rid')) as [Hr|Hr].
  - destruct Hkey as [->|[H1 H2]].
    + rewrite <- Hr. by case_decide.
    + rewrite decide_False by congruence.
      by rewrite (decide_False (P := ServiceRequest.id r = rid)) by congruence.
  - by case_decide.
Qed.

(** The rows found under the new key are the updated rows of the old key,
    when the new key was free. *)
Lemma filter_id_rekeyed rid new upd now (rows : list ServiceRequest.t) :
  Partial.id upd = Some new →
  (new ∉ ServiceRequest.id <$> rows) →
  filter (λ r, ServiceRequest.id r = new) (update_where rid upd now <$> rows)
  = update_where rid upd now <$> filter (λ r, ServiceRequest.id r = rid) rows.
Proof.
  intros Hnew.
  induction rows as [|r rows IH]; [done|].
  rewrite !fmap_cons, not_elem_of_cons. intros [Hr Hrows].
  rewrite !filter_cons, update_where_id, (IH Hrows), Hnew. simpl.
  destruct (decide (ServiceRequest.id r = rid)) as [Hid|Hid].
  - by rewrite decide_True.
  - by rewrite decide_False by congruence.
Qed.

(** No row is found under the old key once the request has another. *)
Lemma filter_id_vacated rid upd now (rows : list ServiceRequest.t) :
  default rid (Partial.id upd) ≠ rid →
  filter (λ r, ServiceRequest.id r = rid) (update_where rid upd now <$> rows) = [].
Proof.
  intros Hne.
  induction rows as [|r rows IH]; [done|].
  rewrite fmap_cons, filter_cons, update_where_id, IH.
  destruct (decide (ServiceRequest.id r = rid)) as [Hid|Hid].
  - by rewrite decide_False.
  - by rewrite decide_False.
Qed.

Lemma ids_update rid upd now (rows : list ServiceRequest.t) :
  default rid (Partial.id upd) = rid →
  ServiceRequest.id <$> (update_where rid upd now <$> rows)
  = ServiceRequest.id <$> rows.
Proof.
  intros Hkey.
  rewrite <- list_fmap_compose. apply list_fmap_ext.
  intros i r _. simpl. rewrite update_where_id, Hkey. by case_decide.
Qed.

Lemma getServiceRequest_id db rid r :
  getServiceRequest db rid = Some r → ServiceRequest.id r = rid ∧ r ∈ serviceRequests db.
Proof.
  unfold getServiceRequest. intros H.
  apply head_Some_elem_of, list_elem_of_filter in H. tauto.
Qed.

Lemma getServiceRequest_update db rid rid' upd now :
  default rid' (Partial.id upd) = rid'
  ∨ (rid ≠ rid' ∧ rid ≠ default rid' (Partial.id upd)) →
  getServiceRequest
    (mkDb (users db) (update_where rid' upd now <$> serviceRequests db) (payments db))
    rid
  = update_where rid' upd now <$> getServiceRequest db rid.
Proof.
  intros Hkey.
  unfold getServiceRequest. simpl. rewrite filter_id_update by done.
  by destruct (filter _ (serviceRequests db)).
Qed.

Lemma getServiceRequest_rekeyed db rid new upd now :
  Partial.id upd = Some new →
  (new ∉ ServiceRequest.id <$> serviceRequests db) →
  getServiceRequest
    (mkDb (users db) (update_where rid upd now <$> serviceRequests db) (payments db))
    new
  = update_where rid upd now <$> getServiceRequest db rid.
Proof.
  intros Hnew Hfree.
  unfold getServiceRequest. simpl. rewrite (filter_id_rekeyed _ new) by done.
  by destruct (filter _ (serviceRequests db)).
Qed.

(** The updated request is found under the key the update leaves it
    with. *)
Lemma getServiceRequest_updated db rid upd now r :
  getServiceRequest db rid = Some r →
  update_ok db rid upd →
  getServiceRequest
    (mkDb (users db) (update_where rid upd now <$> serviceRequests db) (payments db))
    (default rid (Partial.id upd))
  = Some (set_row upd now r).
Proof.
  intros Hget [Hkey _].
  destruct (getServiceRequest_id _ _ _ Hget) as [Hid _].
  destruct (Partial.id upd) as [new|] eqn:Hnew; simpl in *.
  - destruct Hkey as [->|[Hfree _]].
    + rewrite getServiceRequest_update, Hget by (left; by rewrite Hnew).
      simpl. by rewrite update_where_hit.
    + rewrite (getServiceRequest_rekeyed _ _ new), Hget by done.
      simpl. by rewrite update_where_hit.
  - rewrite getServiceRequest_update, Hget by (left; by rewrite Hnew).
    simpl. by rewrite update_where_hit.
Qed.

Lemma getServiceRequest_insert db rid row r :
  getServiceRequest db rid = Some r →
  getServiceRequest (mkDb (users db) (serviceRequests db ++ [row]) (payments db)) rid
  = Some r.
Proof.
  unfold getServiceRequest. simpl. rewrite filter_app.
  destruct (filter _ (serviceRequests db)); [done|]. by simpl.
Qed.

Lemma updateServiceRequest_found db rid upd now r :
  getServiceRequest db rid = Some r →
  updateServiceRequest db rid upd now =
  if decide (Partial.createdAt upd = None ∧ update_ok db rid upd)
  then Some (Some (set_row upd now r),
             mkDb (users db) (update_where rid upd now <$> serviceRequests db)
               (payments db))
  else None.
Proof.
  intros Hget.
  unfold updateServiceRequest. unfold getServiceRequest in Hget.
  destruct (Partial.createdAt upd) as [c|].
  { rewrite decide_True by eauto. rewrite decide_False; [done|]. by intros [? _]. }
  rewrite decide_False by (by intros [? ?]).
  destruct (filter _ (serviceRequests db)) as [|r' l]; [done|].
  simpl in Hget. injection Hget as ->.
  destruct (decide (update_ok db rid upd)) as [Hok|Hok].
  - by rewrite decide_True.
  - rewrite decide_False; [done|]. by intros [_ ?].
Qed.

(** The handler, branch by branch. *)
Lemma patch_cases db userId rid upd now :
  patch_service_request db userId rid upd now =
  match getServiceRequest db rid with
  | None => (status_json 404 "Service request not found", db)
  | Some request =>
      if decide (getUser db userId = None) then
        (status_json 404 "User not found", db)
      else if decide (ServiceRequest.clientId request ≠ userId
                      ∧ ServiceRequest.technicianId request ≠ Some userId) then
        (status_json 403 "Access denied", db)
      else if decide (Partial.createdAt upd = None ∧ update_ok db rid upd) then
        (json (Some (set_row upd now request)),
         mkDb (users db) (update_where rid upd now <$> serviceRequests db)
           (payments db))
      else (status_json 500 "Failed to update service request", db)
  end.
Proof.
  unfold patch_service_request.
  destruct (getServiceRequest db rid) as [request|] eqn:Hget; [|done].
  destruct (getUser db userId) as [user|]; [|done].
  destruct (decide (Some user = None)) as [?|_]; [done|].
  case_decide; [done|].
  rewrite (updateServiceRequest_found _ _ _ _ _ Hget).
  by case_decide.
Qed.

Lemma patch_applied db userId rid upd now :
  patch_applies db userId rid upd →
  ∃ request, getServiceRequest db rid = Some request
    ∧ patch_service_request db userId rid upd now =
      (json (Some (set_row upd now request)),
       mkDb (users db) (update_where rid upd now <$> serviceRequests db)
         (payments db)).
Proof.
  intros (request & Hget & [u Hu] & Hauth & Hc & Hok).
  exists request. split; [done|].
  rewrite patch_cases, Hget.
  rewrite decide_False by congruence.
  rewrite decide_False, decide_True; [done|done|].
  intros [H1 H2]. destruct Hauth; congruence.
Qed.

Lemma patch_refused db userId rid upd now :
  ¬ patch_applies db userId rid upd →
  code_of (patch_service_request db userId rid upd now).1 ≠ 200
  ∧ (patch_service_request db userId rid upd now).2 = db.
Proof.
  intros Hno. rewrite patch_cases.
  destruct (getServiceRequest db rid) as [request|] eqn:Hget; [|done].
  repeat case_decide; simpl; try done.
  exfalso. apply Hno. exists request. split; [done|].
  split; [by destruct (getUser db userId)|]. split; [|tauto].
  destruct (decide (ServiceRequest.clientId request = userId)); [tauto|].
  destruct (decide (ServiceRequest.technicianId request = Some userId)); tauto.
Qed.

Lemma update_applied_rows db rid upd now (i : nat) (r : ServiceRequest.t) :
  serviceRequests db !! i = Some r →
  (update_where rid upd now <$> serviceRequests db) !! i
  = Some (if decide (ServiceRequest.id r = rid) then set_row upd now r else r).
Proof. intros Hi. by rewrite list_lookup_fmap, Hi. Qed.

(** C9, as the code has it.  A generic update that is applied (request and
    caller exist, the caller is the request's client or technician, the
    body has no createdAt member, the supplied columns pass the table's
    constraints) merges every column the body supplies into the row, the
    id included, whatever the supplied status is, stamps updatedAt with
    the current time, and leaves createdAt, every column the body does not
    supply and every other row as they were; the id and the clientId keep
    their values exactly when the body supplies none.  An update that is
    not applied is not answered 200 and changes nothing. *)
Theorem patch_merges_supplied_columns
    (db : Db) (userId rid : string) (upd : Partial.t) (now : Z) :
  let res := patch_service_request db userId rid upd now in
  (patch_applies db userId rid upd →
   code_of res.1 = 200
   ∧ users res.2 = users db
   ∧ payments res.2 = payments db
   ∧ length (serviceRequests res.2) = length (serviceRequests db)
   ∧ ∀ (i : nat) (r : ServiceRequest.t),
       serviceRequests db !! i = Some r →
       ∃ r', serviceRequests res.2 !! i = Some r'
         ∧ (ServiceRequest.id r ≠ rid → r' = r)
         ∧ (ServiceRequest.id r = rid →
            ServiceRequest.id r'
            = default (ServiceRequest.id r) (Partial.id upd)
            ∧ ServiceRequest.createdAt r' = ServiceRequest.createdAt r
            ∧ ServiceRequest.updatedAt r' = now
            ∧ ServiceRequest.clientId r'
              = default (ServiceRequest.clientId r) (Partial.clientId upd)
            ∧ ServiceRequest.technicianId r'
              = default (ServiceRequest.technicianId r) (Partial.technicianId upd)
            ∧ ServiceRequest.serviceType r'
              = default (ServiceRequest.serviceType r) (Partial.serviceType upd)
            ∧ ServiceRequest.description r'
              = default (ServiceRequest.description r) (Partial.description upd)
            ∧ ServiceRequest.location r'
              = default (ServiceRequest.location r) (Partial.location upd)
            ∧ ServiceRequest.status r'
              = default (ServiceRequest.status r) (Partial.status upd)
            ∧ ServiceRequest.quotedPrice r'
              = default (ServiceRequest.quotedPrice r) (Partial.quotedPrice upd)
            ∧ ServiceRequest.technicianNotes r'
              = default (ServiceRequest.technicianNotes r)
                  (Partial.technicianNotes upd)
            ∧ ServiceRequest.images r'
              = default (ServiceRequest.images r) (Partial.images upd)))
  ∧ (¬ patch_applies db userId rid upd → code_of res.1 ≠ 200 ∧ res.2 = db).
Proof.
  intros res. subst res. split; [|apply patch_refused].
  intros Happ.
  destruct (patch_applied db userId rid upd now Happ) as (request & _ & ->).
  simpl. repeat split; [apply length_fmap|].
  intros i r Hi. eexists. split; [by apply update_applied_rows|].
  split; intros Hid.
  - by rewrite decide_False.
  - rewrite decide_True by done. by repeat split.
Qed.

Lemma patch_merges_supplied_columns_witness :
  patch_applies Scenario.created "T1" "r1"
    (Partial.make (Some "r9") None (Some "C1") None (Some "Painter") None None
       (Some "bogus") None None None)
  ∧ code_of (patch_service_request Scenario.created "T1" "r1"
       (Partial.make (Some "r9") None (Some "C1") None (Some "Painter") None None
          (Some "bogus") None None None) 2000).1 = 200.
Proof.
  assert (H : patch_applies Scenario.created "T1" "r1"
    (Partial.make (Some "r9") None (Some "C1") None (Some "Painter") None None
       (Some "bogus") None None None)).
  { eexists. split; [vm_compute; reflexivity|].
    split; [vm_compute; eauto|]. split; [left; reflexivity|].
    split; [reflexivity|].
    unfold update_ok, rekey_ok, opt_ok, references_users. simpl.
    split; [right; split; [by intros ?%list_elem_of_singleton|apply not_elem_of_nil]|].
    split; [apply list_elem_of_here|done]. }
  split; [exact H|].
  exact (proj1 (proj1 (patch_merges_supplied_columns Scenario.created "T1" "r1" _ 2000)
                  H)).
Defined.

(** C9, counterexample.  Tina's update of her job names Alice as client,
    changes the service type, stores a status outside the enumeration and
    gives the request another id: the update is answered with 200 and
    stored as sent, and the request is no longer found under its id. *)
Lemma patch_overwrites_client_and_status :
  ("bogus" ∉ status_enum)
  ∧ serviceRequests Scenario.created =
    [ ServiceRequest.mk "r1" "T1" (Some "T1") "Plumber" "Kitchen sink leaks"
        "Cairo" "pending" None None (Some []) 1000 1000 ]
  ∧ answer Scenario.created Scenario.takeover = 200
  ∧ serviceRequests (step Scenario.created Scenario.takeover) =
    [ ServiceRequest.mk "r9" "C1" (Some "T1") "Painter" "Kitchen sink leaks"
        "Cairo" "bogus" None None (Some []) 1000 2000 ]
  ∧ getServiceRequest (step Scenario.created Scenario.takeover) "r1" = None.
Proof.
  split; [|by vm_compute].
  unfold status_enum. rewrite !not_elem_of_cons. repeat split; try done.
  apply not_elem_of_nil.
Qed.

(** A body with a createdAt member is answered 500 and changes nothing;
    so is a body that names the id of another request, or names a new id
    for a request that has a payment. *)
Example update_with_createdAt_is_refused :
  patch_service_request Scenario.created "T1" "r1"
    (Partial.make None (Some "2020-01-01T00:00:00.000Z") None None None None None
       (Some "accepted") None None None) 2000
  = (status_json 500 "Failed to update service request", Scenario.created).
Proof. by vm_compute. Qed.

Example rekey_to_a_used_id_is_refused :
  ServiceRequest.id <$> serviceRequests Scenario.posted = ["a1"; "a2"; "a3"]
  ∧ patch_service_request Scenario.posted "C1" "a1"
      (Partial.make (Some "a2") None None None None None None None None None None) 400
    = (status_json 500 "Failed to update service request", Scenario.posted).
Proof. by vm_compute. Qed.

Example rekey_of_a_request_with_payments_is_refused :
  Payment.serviceRequestId <$> payments (run Scenario.completed Scenario.two_intents)
  = ["r1"; "r1"]
  ∧ patch_service_request (run Scenario.completed Scenario.two_intents) "T1" "r1"
      (Partial.make (Some "r9") None None None None None None None None None None) 7000
    = (status_json 500 "Failed to update service request",
       run Scenario.completed Scenario.two_intents).
Proof. by vm_compute. Qed.

(** ** Completion *)

(** C8, on the code.  A request in progress is completed by its
    technician with price 0 and an empty summary, values that the
    completion dialog of the request page lets through and that the
    completion dialog of the dashboard refuses: the update is answered 200
    and the request is stored as completed with that price and that
    summary.  No payment can then be opened for it, since the payment
    route refuses a request whose price is 0. *)
Theorem complete_with_zero_price_and_empty_summary :
  status_of Scenario.started "r1" = Some "in_progress"
  ∧ complete_submit_enabled "0"
  ∧ ¬ Pages.completeSchema 0 ""
  ∧ answer Scenario.started (Scenario.complete_with (Some 0) "") = 200
  ∧ serviceRequests (step Scenario.started (Scenario.complete_with (Some 0) "")) =
    [ ServiceRequest.mk "r1" "T1" (Some "T1") "Plumber" "Kitchen sink leaks"
        "Cairo" "completed" (Some 0) (Some "") (Some []) 1000 4000 ]
  ∧ post_create_intent
      (step Scenario.started (Scenario.complete_with (Some 0) ""))
      (Scenario.stripe_lenient "pi_1" "secret_1") "r1" "p1" 5000
    = (status_json 400 "No quoted price available",
       step Scenario.started (Scenario.complete_with (Some 0) "")).
Proof.
  split; [by vm_compute|]. split; [done|].
  split; [intros [? _]; lia|]. by vm_compute.
Qed.

(** ** Acceptance *)

(** C3, as the code has it.  The accept payload goes through the generic
    update.  It is answered 404 when the request id does not resolve or the
    caller has no user row, and 403 when the caller is neither the
    request's client nor its technician; in these cases nothing changes, so
    a request held by T1 stays with T1 when another user who is not its
    client sends the payload.  From the request's client or its current
    technician the payload is applied, whatever the caller's role and the
    request's status: the caller becomes the technician and the status
    becomes accepted. *)
Theorem accept_goes_through_generic_update
    (db : Db) (user : User.t) (rid : string) (now : Z) :
  let userId := User.id user in
  let res := patch_service_request db userId rid (acceptJobMutation (Some user)) now in
  (getServiceRequest db rid = None →
     res = (status_json 404 "Service request not found", db))
  ∧ (is_Some (getServiceRequest db rid) → getUser db userId = None →
     res = (status_json 404 "User not found", db))
  ∧ (∀ request, getServiceRequest db rid = Some request →
       is_Some (getUser db userId) →
       ServiceRequest.clientId request ≠ userId →
       ServiceRequest.technicianId request ≠ Some userId →
       res = (status_json 403 "Access denied", db))
  ∧ (∀ request t1, getServiceRequest db rid = Some request →
       is_Some (getUser db userId) →
       ServiceRequest.technicianId request = Some t1 →
       t1 ≠ userId →
       ServiceRequest.clientId request ≠ userId →
       code_of res.1 = 403
       ∧ ServiceRequest.technicianId <$> getServiceRequest res.2 rid = Some (Some t1))
  ∧ (∀ request, getServiceRequest db rid = Some request →
       is_Some (getUser db userId) →
       ServiceRequest.clientId request = userId
       ∨ ServiceRequest.technicianId request = Some userId →
       code_of res.1 = 200
       ∧ ∃ r', getServiceRequest res.2 rid = Some r'
           ∧ ServiceRequest.technicianId r' = Some userId
           ∧ ServiceRequest.status r' = "accepted"
           ∧ ServiceRequest.clientId r' = ServiceRequest.clientId request).
Proof.
  intros userId res.
  assert (H403 : ∀ request, getServiceRequest db rid = Some request →
            is_Some (getUser db userId) →
            ServiceRequest.clientId request ≠ userId →
            ServiceRequest.technicianId request ≠ Some userId →
            res = (status_json 403 "Access denied", db)).
  { intros request Hget [u Hu] Hc Ht. subst res.
    rewrite patch_cases, Hget.
    rewrite decide_False by congruence. by rewrite decide_True. }
  split; [|split; [|split; [|split]]].
  - intros Hget. subst res. by rewrite patch_cases, Hget.
  - intros [request Hget] Hu. subst res.
    rewrite patch_cases, Hget. by rewrite decide_True.
  - exact H403.
  - intros request t1 Hget Hu Ht Hne Hc.
    rewrite (H403 request); [|done|done|done|congruence].
    simpl. by rewrite Hget, <- Ht.
  - intros request Hget [u Hu] Hauth.
    assert (Hin : references_users db userId).
    { unfold references_users, getUser in *.
      apply head_Some_elem_of, list_elem_of_filter in Hu as [Hid Hin].
      apply list_elem_of_fmap. by exists u. }
    assert (Happ : patch_applies db userId rid (acceptJobMutation (Some user))).
    { exists request. split; [done|]. split; [by exists u|]. split; [done|].
      unfold update_ok. simpl. done. }
    subst res.
    destruct (patch_applied db userId rid _ now Happ) as (request' & Hget' & ->).
    assert (request' = request) as -> by congruence.
    simpl. split; [done|].
    eexists. split.
    + rewrite getServiceRequest_update, Hget by (by left). simpl.
      rewrite update_where_hit; [done|].
      by apply getServiceRequest_id in Hget as [? _].
    + done.
Qed.

(** C3, counterexample.  Tina already is the technician of her job: her
    accept is answered 200, not 403; sent again when the job is accepted
    and no longer pending, it is answered 200 again. *)
Lemma accept_by_current_technician_is_applied :
  ServiceRequest.technicianId <$> serviceRequests Scenario.created = [Some "T1"]
  ∧ getUser Scenario.created "T1" = Some Scenario.tina
  ∧ User.userType Scenario.tina = Some User.technician
  ∧ answer Scenario.created
      (Patch "T1" "r1" (acceptJobMutation (Some Scenario.tina)) 2000) = 200
  ∧ status_of Scenario.accepted "r1" = Some "accepted"
  ∧ answer Scenario.accepted Scenario.accept_again = 200.
Proof. by vm_compute. Qed.

(** Tom, a technician, opens a pending request of Alice that has no
    technician: the page renders the accept button for him, and the accept
    he sends is answered 403. *)
Example accept_by_unrelated_technician_is_refused :
  (∃ r, getServiceRequest Scenario.posted "a2" = Some r
        ∧ accept_button (Some Scenario.tom) r)
  ∧ answer Scenario.posted Scenario.tom_accepts = 403
  ∧ step Scenario.posted Scenario.tom_accepts = Scenario.posted.
Proof.
  split; [|by vm_compute].
  eexists. split; [by vm_compute|].
  split; [done|]. split; [|done]. by intros [=].
Qed.

(** For the job Tina holds the page does not render the accept button. *)
Example accept_button_hidden_for_own_job :
  Forall (λ r, ¬ accept_button (Some Scenario.tina) r)
    (serviceRequests Scenario.created).
Proof.
  rewrite created_row. apply Forall_singleton.
  intros (_ & Hmine & _). by apply Hmine.
Qed.

(** The completion dialog lets the price 0 be submitted. *)
Example complete_dialog_accepts_zero : complete_submit_enabled "0".
Proof. done. Qed.

(** ** What each route does to the table of requests *)

Lemma createServiceRequest_Some db request uuid now row db' :
  createServiceRequest db request uuid now = Some (row, db') →
  db' = mkDb (users db) (serviceRequests db ++ [row]) (payments db)
  ∧ (uuid ∉ ServiceRequest.id <$> serviceRequests db)
  ∧ ServiceRequest.id row = uuid
  ∧ ServiceRequest.clientId row = Insert.clientId request
  ∧ ServiceRequest.technicianId row = Insert.technicianId request
  ∧ ServiceRequest.status row = default "pending" (Insert.status request).
Proof.
  unfold createServiceRequest. case_decide as Hok; [|done].
  intros [= <- <-]. simpl. tauto.
Qed.

Lemma post_service_requests_rows db userId body uuid now :
  (post_service_requests db userId body uuid now).2 = db
  ∨ ∃ row,
      (post_service_requests db userId body uuid now).2
      = mkDb (users db) (serviceRequests db ++ [row]) (payments db)
      ∧ (ServiceRequest.id row ∉ ServiceRequest.id <$> serviceRequests db)
      ∧ ServiceRequest.technicianId row = default None (Partial.technicianId body)
      ∧ ServiceRequest.status row = default "pending" (Partial.status body).
Proof.
  unfold post_service_requests. case_decide; [by left|].
  destruct (insertServiceRequestSchema_parse _) as [data|] eqn:Hparse; [|by left].
  destruct (createServiceRequest db data uuid now) as [[row db']|] eqn:Hc; [|by left].
  right. exists row.
  apply createServiceRequest_Some in Hc as (-> & Hfresh & <- & _ & Ht & Hs).
  unfold insertServiceRequestSchema_parse, with_clientId in Hparse. simpl in Hparse.
  destruct (Partial.serviceType body), (Partial.description body),
    (Partial.location body); try done.
  injection Hparse as <-. simpl in *. done.
Qed.

Lemma post_technician_jobs_rows db userId body uuid now :
  (∃ code msg, post_technician_jobs db userId body uuid now = (status_json code msg, db))
  ∨ ∃ row,
      post_technician_jobs db userId body uuid now
      = (json row, mkDb (users db) (serviceRequests db ++ [row]) (payments db))
      ∧ (ServiceRequest.id row ∉ ServiceRequest.id <$> serviceRequests db)
      ∧ ServiceRequest.clientId row = userId
      ∧ ServiceRequest.technicianId row = Some userId
      ∧ ServiceRequest.status row = "pending".
Proof.
  unfold post_technician_jobs.
  destruct (getUser db userId) as [user|]; [|left; eauto].
  case_decide; [|left; eauto].
  destruct (minimalSchema_parse body) as [[[ty d] l]|]; [|left; eauto].
  destruct (createServiceRequest _ _ _ _) as [[row db']|] eqn:Hc; [|left; eauto].
  right. exists row.
  apply createServiceRequest_Some in Hc as (-> & Hfresh & <- & ? & ? & ?).
  done.
Qed.

Lemma post_create_intent_requests db stripe rid uuid now :
  serviceRequests (post_create_intent db stripe rid uuid now).2 = serviceRequests db.
Proof.
  unfold post_create_intent, createPayment.
  repeat (case_match; simpl; try done).
  all: by simplify_eq.
Qed.

Lemma post_confirm_requests db stripe body :
  serviceRequests (post_confirm db stripe body).2 = serviceRequests db.
Proof.
  unfold post_confirm, updatePaymentStatus.
  repeat (case_match; simpl; try done).
Qed.

Lemma status_of_same_rows db db' rid :
  serviceRequests db' = serviceRequests db → status_of db' rid = status_of db rid.
Proof. unfold status_of, getServiceRequest. by intros ->. Qed.

Lemma status_of_insert db rid row s :
  status_of db rid = Some s →
  status_of (mkDb (users db) (serviceRequests db ++ [row]) (payments db)) rid = Some s.
Proof.
  unfold status_of. intros H.
  destruct (getServiceRequest db rid) as [r|] eqn:Hget; [|done].
  by rewrite (getServiceRequest_insert _ _ _ _ Hget).
Qed.

(** ** Terminal states *)

#[local] Ltac refused_update :=
  simpl; rewrite decide_False; [done|intros [_ ?]; done].

Lemma update_ok_key db rid id upd :
  is_Some (getServiceRequest db rid) → id ≠ rid →
  update_ok db id upd →
  default id (Partial.id upd) = id
  ∨ (rid ≠ id ∧ rid ≠ default id (Partial.id upd)).
Proof.
  intros [r Hr] Hne [Hkey _].
  destruct (Partial.id upd) as [new|]; simpl in *; [|by left].
  destruct Hkey as [->|[Hfree _]]; [by left|right].
  split; [done|]. intros <-. apply Hfree.
  apply getServiceRequest_id in Hr as [<- Hin].
  by apply list_elem_of_fmap_2.
Qed.

(** C2, as the code has it.  The status of a stored request, terminal or
    not, is changed by one call only: a generic update for that request
    that is answered 200 and whose body supplies a status; the status then
    becomes the supplied one.  Such an update may also give the request
    another id: the request is then found under the new id and no longer
    under the old one.  Every other call leaves the request under its id
    with the status it had. *)
Theorem status_changes_only_by_applied_update
    (db : Db) (op : Op) (rid s : string) :
  status_of db rid = Some s →
  match op with
  | Patch _ id upd _ =>
      if decide (id = rid ∧ answer db op = 200) then
        status_of (step db op) (default rid (Partial.id upd))
        = Some (default s (Partial.status upd))
        ∧ (default rid (Partial.id upd) ≠ rid → status_of (step db op) rid = None)
      else status_of (step db op) rid = Some s
  | _ => status_of (step db op) rid = Some s
  end.
Proof.
  intros Hs. destruct op as [u body uuid now|u body uuid now|u id upd now
                            |u stripe sid uuid now|u stripe body]; simpl.
  - destruct (post_service_requests_rows db u body uuid now) as [->|(row & -> & _)];
      [done|by apply status_of_insert].
  - destruct (post_technician_jobs_rows db u body uuid now)
      as [(c & m & ->)|(row & -> & _)]; [done|by apply status_of_insert].
  - rewrite patch_cases.
    destruct (getServiceRequest db id) as [request|] eqn:Hget; simpl.
    + destruct (decide (getUser db u = None)); [refused_update|].
      destruct (decide (ServiceRequest.clientId request ≠ u
                        ∧ ServiceRequest.technicianId request ≠ Some u));
        [refused_update|].
      destruct (decide (Partial.createdAt upd = None ∧ update_ok db id upd))
        as [[_ Hok]|_]; [|refused_update].
      simpl. unfold status_of in *.
      destruct (getServiceRequest db rid) as [r|] eqn:Hr; [|done].
      simpl in Hs. injection Hs as <-.
      destruct (decide (id = rid)) as [->|Hne].
      * rewrite decide_True by done.
        assert (r = request) as -> by congruence.
        split.
        -- by rewrite (getServiceRequest_updated _ _ _ _ _ Hget Hok).
        -- intros Hkey. unfold getServiceRequest. simpl.
           by rewrite filter_id_vacated.
      * rewrite decide_False by tauto.
        rewrite getServiceRequest_update, Hr
          by (apply (update_ok_key db); [by rewrite Hr|done|done]).
        simpl. rewrite update_where_miss; [done|].
        apply getServiceRequest_id in Hr as [Hid _]. congruence.
    + refused_update.
  - by rewrite (status_of_same_rows db _ rid (post_create_intent_requests _ _ _ _ _)).
  - by rewrite (status_of_same_rows db _ rid (post_confirm_requests _ _ _)).
Qed.

Lemma status_changes_only_by_applied_update_witness :
  status_of Scenario.completed "r1" = Some "completed"
  ∧ status_of (step Scenario.completed Scenario.reopen) "r1" = Some "pending".
Proof.
  split; [by vm_compute|].
  exact (proj1 (status_changes_only_by_applied_update Scenario.completed
                  Scenario.reopen "r1" "completed" ltac:(by vm_compute))).
Defined.

(** C2, counterexample.  The completed request is moved back to pending by
    a status-only update from its technician. *)
Lemma completed_request_reopened :
  terminal "completed"
  ∧ status_of Scenario.completed "r1" = Some "completed"
  ∧ answer Scenario.completed Scenario.reopen = 200
  ∧ status_of (step Scenario.completed Scenario.reopen) "r1" = Some "pending".
Proof. split; [by left|by vm_compute]. Qed.

(** ** The assignment invariant *)

Lemma row_by_id (rows : list ServiceRequest.t) (r1 r2 : ServiceRequest.t) :
  NoDup (ServiceRequest.id <$> rows) →
  r1 ∈ rows → r2 ∈ rows → ServiceRequest.id r1 = ServiceRequest.id r2 → r1 = r2.
Proof.
  induction rows as [|r rows IH]; simpl; [by intros _ ?%elem_of_nil|].
  rewrite NoDup_cons. intros [Hr Hnd] H1 H2 Hid.
  apply elem_of_cons in H1 as [->|H1]; apply elem_of_cons in H2 as [->|H2].
  - done.
  - exfalso. apply Hr. rewrite Hid. by apply list_elem_of_fmap_2.
  - exfalso. apply Hr. rewrite <- Hid. by apply list_elem_of_fmap_2.
  - by apply IH.
Qed.

Lemma patch_state db userId rid upd now :
  (patch_service_request db userId rid upd now).2 = db
  ∨ ∃ request, getServiceRequest db rid = Some request
      ∧ (patch_service_request db userId rid upd now).2
        = mkDb (users db) (update_where rid upd now <$> serviceRequests db)
            (payments db).
Proof.
  rewrite patch_cases.
  destruct (getServiceRequest db rid) as [request|]; [|by left].
  repeat case_decide; simpl; eauto.
Qed.

Lemma insert_keeps_invariant db row :
  lifecycle_invariant db →
  (ServiceRequest.id row ∉ ServiceRequest.id <$> serviceRequests db) →
  assigned_iff_active row →
  lifecycle_invariant (mkDb (users db) (serviceRequests db ++ [row]) (payments db)).
Proof.
  intros [Hnd Hall] Hfresh Hrow. split.
  - unfold unique_ids in *. simpl. rewrite fmap_app. simpl.
    apply NoDup_app. split; [done|]. split; [|apply NoDup_singleton].
    intros x Hx ->%list_elem_of_singleton. done.
  - simpl. apply Forall_app. split; [done|]. by apply Forall_singleton.
Qed.

Lemma same_rows_keep_invariant db db' :
  serviceRequests db' = serviceRequests db →
  lifecycle_invariant db → lifecycle_invariant db'.
Proof. unfold lifecycle_invariant, unique_ids. by intros ->. Qed.

(** C1, as the code has it.  Along the calls the client's pages make
    (creating a request without technician or status, the accept payload of
    the caller, starting an accepted request, completing a request in
    progress, the payment calls) every stored request keeps: technicianId
    is non-null exactly when the status is neither pending nor cancelled.
    A job recorded through the technician route is not such a call: it is
    stored pending with the creator as both client and technician. *)
Theorem lifecycle_calls_keep_assignment_invariant (db : Db) :
  (∀ op, lifecycle_invariant db → lifecycle_call db op →
         lifecycle_invariant (step db op))
  ∧ (∀ userId body uuid now created db',
       post_technician_jobs db userId body uuid now = (json created, db') →
       ServiceRequest.status created = "pending"
       ∧ ServiceRequest.technicianId created = Some userId
       ∧ ServiceRequest.clientId created = userId
       ∧ db' = mkDb (users db) (serviceRequests db ++ [created]) (payments db)).
Proof.
  split.
  - intros op Hinv Hcall.
    destruct op as [u body uuid now|u body uuid now|u id upd now
                   |u stripe sid uuid now|u stripe body]; simpl in *.
    + destruct Hcall as [Ht Hs].
      destruct (post_service_requests_rows db u body uuid now)
        as [->|(row & -> & Hfresh & Hrt & Hrs)]; [done|].
      apply insert_keeps_invariant; [done|done|].
      unfold assigned_iff_active. rewrite Hrt, Hrs, Ht, Hs.
      split; [done|intros [? _]; done].
    + done.
    + assert (Hkey : default id (Partial.id upd) = id).
      { by destruct Hcall as [(user & _ & ->)|[[_ ->]|[_ (price & notes & ->)]]]. }
      destruct (patch_state db u id upd now) as [->|(request & Hget & ->)]; [done|].
      destruct Hinv as [Hnd Hall]. split.
      { unfold unique_ids in *. simpl. by rewrite ids_update. }
      simpl. apply Forall_fmap, Forall_forall. intros r Hr.
      rewrite Forall_forall in Hall. pose proof (Hall r Hr) as Hinv_r.
      simpl. unfold update_where. case_decide as Hid; [|done].
      destruct (getServiceRequest_id _ _ _ Hget) as [Hid' Hin].
      assert (r = request) as ->
        by (apply (row_by_id (serviceRequests db)); [exact Hnd|done|done|congruence]).
      unfold status_of in Hcall. rewrite Hget in Hcall. simpl in Hcall.
      unfold assigned_iff_active in *.
      destruct Hcall as [(user & Hu & ->)|[[Hs ->]|[Hs (price & notes & ->)]]];
        simpl.
      * split; [intros _; split; done|done].
      * injection Hs as Hs. rewrite Hs in Hinv_r.
        split; [done|]. intros _. by apply Hinv_r.
      * injection Hs as Hs. rewrite Hs in Hinv_r.
        split; [done|]. intros _. by apply Hinv_r.
    + apply (same_rows_keep_invariant db); [|done].
      apply post_create_intent_requests.
    + apply (same_rows_keep_invariant db); [|done].
      apply post_confirm_requests.
  - intros userId body uuid now created db' H.
    destruct (post_technician_jobs_rows db userId body uuid now)
      as [(c & m & Hrefused)|(row & Hrow & _ & ? & ? & ?)].
    + rewrite Hrefused in H. done.
    + rewrite Hrow in H. by simplify_eq.
Qed.

Lemma lifecycle_calls_keep_assignment_invariant_witness :
  lifecycle_invariant Scenario.db0
  ∧ lifecycle_call Scenario.db0
      (CreateRequest "C1" (Scenario.form "Plumber") "a1" 100)
  ∧ lifecycle_invariant
      (step Scenario.db0 (CreateRequest "C1" (Scenario.form "Plumber") "a1" 100)).
Proof.
  assert (H0 : lifecycle_invariant Scenario.db0).
  { split; [apply NoDup_nil_2|apply Forall_nil_2]. }
  assert (Hc : lifecycle_call Scenario.db0
                 (CreateRequest "C1" (Scenario.form "Plumber") "a1" 100)).
  { split; reflexivity. }
  split; [exact H0|]. split; [exact Hc|].
  exact (proj1 (lifecycle_calls_keep_assignment_invariant Scenario.db0) _ H0 Hc).
Defined.

(** C1, counterexample.  With no request stored the invariant holds; Tina
    records a job through the technician route and the stored request is
    pending with a technician.  And Alice's pending request, which has no
    technician, is put in progress by a status-only update of hers and
    still has no technician. *)
Lemma technician_job_is_pending_with_technician :
  lifecycle_invariant Scenario.db0
  ∧ answer Scenario.db0 (CreateJob "T1" Scenario.leak "r1" 1000) = 200
  ∧ (∃ r, serviceRequests (step Scenario.db0 (CreateJob "T1" Scenario.leak "r1" 1000))
          = [r]
       ∧ ServiceRequest.status r = "pending"
       ∧ ServiceRequest.technicianId r = Some "T1"
       ∧ ¬ assigned_iff_active r
       ∧ ¬ unassigned_iff_pending r)
  ∧ Forall assigned_iff_active (serviceRequests Scenario.posted)
  ∧ answer Scenario.posted Scenario.alice_starts = 200
  ∧ (∃ r, getServiceRequest (step Scenario.posted Scenario.alice_starts) "a1" = Some r
       ∧ ServiceRequest.status r = "in_progress"
       ∧ ServiceRequest.technicianId r = None
       ∧ ¬ assigned_iff_active r).
Proof.
  split; [split; [apply NoDup_nil_2|apply Forall_nil_2]|].
  split; [by vm_compute|].
  split; [|split; [|split; [by vm_compute|]]].
  - eexists. split; [by vm_compute|]. simpl.
    split; [done|]. split; [done|]. split.
    + unfold assigned_iff_active. simpl. intros [H _].
      destruct H as [H _]; [done|]. by apply H.
    + unfold unassigned_iff_pending. simpl. intros [_ H]. by specialize (H eq_refl).
  - repeat apply Forall_cons_2; [..|apply Forall_nil_2];
      (split; [done|intros [H _]; by destruct H]).
  - eexists. split; [by vm_compute|]. simpl.
    split; [done|]. split; [done|].
    unfold assigned_iff_active. simpl. intros [_ H].
    destruct H; [split; done|done].
Qed.

(** ** Payments *)

Lemma getPaymentByServiceRequest_elem db rid p :
  getPaymentByServiceRequest db rid = Some p →
  Payment.serviceRequestId p = rid ∧ p ∈ payments db.
Proof.
  unfold getPaymentByServiceRequest. intros H.
  apply head_Some_elem_of, list_elem_of_filter in H. tauto.
Qed.

Lemma none_succeeded_lookup db rid :
  succeeded_for db rid = [] →
  Payment.status <$> getPaymentByServiceRequest db rid ≠ Some Payment.succeeded.
Proof.
  intros Hnone Hst.
  destruct (getPaymentByServiceRequest db rid) as [p|] eqn:Hget; [|done].
  simpl in Hst. injection Hst as Hst.
  apply getPaymentByServiceRequest_elem in Hget as [Hrid Hin].
  assert (p ∈ succeeded_for db rid) as Hp
    by (apply list_elem_of_filter; done).
  rewrite Hnone in Hp. by apply elem_of_nil in Hp.
Qed.

(** C5, as the code has it.  createIntent answers 404 when the request id
    does not resolve, 400 when the request is not completed, 400 when its
    quotedPrice is null or 0, and 400 "Payment already completed" when the
    payment found for the request has succeeded; nothing is stored in these
    cases.  For a completed request with a non-zero price none of whose
    payments has succeeded, once the processor has opened the intent
    exactly one Payment row is appended, pending, with the quoted price as
    amount and the intent's reference, and the intent's client secret is
    returned. *)
Theorem create_intent_outcomes
    (db : Db) (stripe : Stripe.t) (rid uuid : string) (now : Z) :
  let res := post_create_intent db stripe rid uuid now in
  (getServiceRequest db rid = None →
     res = (status_json 404 "Service request not found", db))
  ∧ ∀ request, getServiceRequest db rid = Some request →
      (ServiceRequest.status request ≠ "completed" →
         res = (status_json 400 "Service request must be completed before payment", db))
      ∧ (ServiceRequest.status request = "completed" →
         ServiceRequest.quotedPrice request = None
         ∨ ServiceRequest.quotedPrice request = Some 0 →
         res = (status_json 400 "No quoted price available", db))
      ∧ ∀ price,
          ServiceRequest.status request = "completed" →
          ServiceRequest.quotedPrice request = Some price →
          price ≠ 0 →
          (∀ p, getPaymentByServiceRequest db rid = Some p →
                Payment.status p = Payment.succeeded →
                res = (status_json 400 "Payment already completed", db))
          ∧ (∀ intent,
               succeeded_for db rid = [] →
               Stripe.paymentIntents_create stripe
                 (Stripe.mkParams (price * 100) "usd"
                    (Stripe.mkMetadata rid (ServiceRequest.clientId request)
                       (default "" (ServiceRequest.technicianId request))))
               = Some intent →
               (uuid ∉ Payment.id <$> payments db) →
               int4 price →
               res = (json (mkIntentCreated (Stripe.client_secret intent) uuid),
                      mkDb (users db) (serviceRequests db)
                        (payments db ++
                           [Payment.mk uuid rid price (Stripe.id intent)
                              Payment.pending now]))).
Proof.
  intros res. subst res. unfold post_create_intent. split.
  - by intros ->.
  - intros request Hget. rewrite Hget.
    destruct (getServiceRequest_id _ _ _ Hget) as [Hid Hin].
    split; [|split].
    + intros Hs. by rewrite decide_True.
    + intros Hs Hq. rewrite decide_False by (by intros ?).
      rewrite decide_True; [done|]. by destruct Hq as [->| ->].
    + intros price Hs Hq Hne.
      rewrite decide_False by (by intros ?).
      rewrite decide_False by (by rewrite Hq).
      split.
      * intros p Hp Hst. rewrite Hp. simpl. by rewrite Hst, decide_True.
      * intros intent Hnone Hcreate Hfresh Hint.
        rewrite decide_False by (by apply none_succeeded_lookup).
        rewrite Hq. simpl. rewrite Hcreate.
        unfold createPayment. simpl.
        rewrite decide_True; [done|].
        split; [done|]. split; [|done].
        apply list_elem_of_fmap. by exists request.
Qed.

Lemma create_intent_outcomes_witness :
  post_create_intent Scenario.completed (Scenario.stripe_opens "pi_1" "secret_1")
    "r1" "p1" 5000
  = (json (mkIntentCreated (Some "secret_1") "p1"),
     mkDb (users Scenario.completed) (serviceRequests Scenario.completed)
       (payments Scenario.completed
          ++ [Payment.mk "p1" "r1" 120 "pi_1" Payment.pending 5000])).
Proof.
  destruct (create_intent_outcomes Scenario.completed
              (Scenario.stripe_opens "pi_1" "secret_1") "r1" "p1" 5000) as [_ H].
  destruct (H (ServiceRequest.mk "r1" "T1" (Some "T1") "Plumber"
                 "Kitchen sink leaks" "Cairo" "completed" (Some 120)
                 (Some "Fixed leak") (Some []) 1000 4000)
              ltac:(by vm_compute)) as (_ & _ & H3).
  destruct (H3 120 eq_refl eq_refl ltac:(done)) as [_ H4].
  apply (H4 (Stripe.mkIntent "pi_1" (Some "secret_1") "requires_payment_method")).
  - by vm_compute.
  - by vm_compute.
  - apply not_elem_of_nil.
  - unfold int4. lia.
Defined.

(** C5, counterexample.  A request completed with the price -5 has no
    positive price, yet createIntent does not answer 400: the amount -500
    is sent to the processor, and the answer is the processor's, 500 when
    it refuses the amount, 200 with a stored payment of -5 when it does
    not. *)
Lemma create_intent_with_negative_price :
  ServiceRequest.status <$> serviceRequests Scenario.underpriced = ["completed"]
  ∧ ServiceRequest.quotedPrice <$> serviceRequests Scenario.underpriced = [Some (-5)]
  ∧ post_create_intent Scenario.underpriced
      (Scenario.stripe_opens "pi_1" "secret_1") "r1" "p1" 5000
    = (status_json 500 "Failed to create payment intent", Scenario.underpriced)
  ∧ (post_create_intent Scenario.underpriced
       (Scenario.stripe_lenient "pi_1" "secret_1") "r1" "p1" 5000).1
    = json (mkIntentCreated (Some "secret_1") "p1")
  ∧ payments (post_create_intent Scenario.underpriced
                (Scenario.stripe_lenient "pi_1" "secret_1") "r1" "p1" 5000).2
    = [Payment.mk "p1" "r1" (-5) "pi_1" Payment.pending 5000].
Proof. by vm_compute. Qed.

(** The lookup of the request's payment returns one row, the first that
    the scan meets.  With a pending first payment and a succeeded second
    one, a further intent is opened and a third payment stored. *)
Example create_intent_after_second_payment_succeeded :
  Payment.status <$> payments (run Scenario.completed Scenario.second_confirmed)
  = [Payment.pending; Payment.succeeded]
  ∧ answer (run Scenario.completed Scenario.second_confirmed)
      (CreateIntent "T1" (Scenario.stripe_opens "pi_3" "secret_3") "r1" "p3" 6000)
    = 200
  ∧ Payment.id <$> payments
      (step (run Scenario.completed Scenario.second_confirmed)
         (CreateIntent "T1" (Scenario.stripe_opens "pi_3" "secret_3") "r1" "p3" 6000))
    = ["p1"; "p2"; "p3"].
Proof. by vm_compute. Qed.

(** C6, on the code.  Two intents are opened for the completed request r1
    while its first payment is pending, both are paid at the processor and
    both are confirmed: two payments of r1 are succeeded. *)
Theorem two_payments_of_one_request_succeed :
  succeeded_for Scenario.completed "r1" = []
  ∧ succeeded_for (run Scenario.completed Scenario.both_confirmed) "r1"
    = [ Payment.mk "p1" "r1" 120 "pi_1" Payment.succeeded 5000;
        Payment.mk "p2" "r1" 120 "pi_2" Payment.succeeded 5001 ].
Proof. by vm_compute. Qed.

(** ** Confirmation *)

Lemma set_payment_status_lookup pid st (rows : list Payment.t) (i : nat) p :
  rows !! i = Some p →
  (set_payment_status pid st <$> rows) !! i
  = Some (if decide (Payment.id p = pid)
          then Payment.mk (Payment.id p) (Payment.serviceRequestId p)
                 (Payment.amount p) (Payment.stripePaymentIntentId p) st
                 (Payment.createdAt p)
          else p).
Proof. intros Hi. by rewrite list_lookup_fmap, Hi. Qed.

Lemma set_payment_status_absent pid st (rows : list Payment.t) :
  (pid ∉ Payment.id <$> rows) → set_payment_status pid st <$> rows = rows.
Proof.
  induction rows as [|p rows IH]; [done|].
  rewrite fmap_cons, not_elem_of_cons. intros [Hne Hrest].
  rewrite fmap_cons, IH by done. unfold set_payment_status.
  by rewrite decide_False by congruence.
Qed.

(** C7.  The answer of confirm and the new payment table are a function of
    what the processor reports for the reference, and of nothing else the
    client sends: a payment row becomes succeeded exactly when it is the
    row named by paymentId and the processor reports "succeeded"; on any
    other reported status nothing changes and the answer is a 200 with
    success false; only a failing call to the processor is answered 500. *)
Theorem confirm_follows_processor (db : Db) (stripe : Stripe.t) (body : ConfirmBody) :
  let res := post_confirm db stripe body in
  (∀ rest, post_confirm db stripe
             (mkConfirmBody (body_paymentId body) (body_paymentIntentId body) rest)
           = res)
  ∧ match Stripe.paymentIntents_retrieve stripe (body_paymentIntentId body) with
    | None => res = (status_json 500 "Failed to confirm payment", db)
    | Some intent =>
        let ok := bool_decide (Stripe.status intent = "succeeded") in
        res.1 = json (mkConfirmed ok (if ok then "Payment confirmed"
                                      else "Payment not yet completed"))
        ∧ users res.2 = users db
        ∧ serviceRequests res.2 = serviceRequests db
        ∧ length (payments res.2) = length (payments db)
        ∧ (ok = false → res.2 = db)
        ∧ ∀ (i : nat) p, payments db !! i = Some p →
            ∃ p', payments res.2 !! i = Some p'
              ∧ Payment.id p' = Payment.id p
              ∧ Payment.serviceRequestId p' = Payment.serviceRequestId p
              ∧ Payment.amount p' = Payment.amount p
              ∧ Payment.stripePaymentIntentId p' = Payment.stripePaymentIntentId p
              ∧ Payment.status p'
                = if decide (ok = true ∧ Payment.id p = body_paymentId body)
                  then Payment.succeeded else Payment.status p
    end.
Proof.
  intros res. subst res. unfold post_confirm. simpl. split; [done|].
  destruct (Stripe.paymentIntents_retrieve _ _) as [intent|]; [|done].
  simpl. case_decide as Hst.
  - rewrite bool_decide_eq_true_2 by done. simpl.
    repeat split; [apply length_fmap|done|].
    intros i p Hi. eexists. split; [by apply set_payment_status_lookup|].
    destruct (decide (Payment.id p = body_paymentId body)).
    + rewrite decide_True by done. done.
    + rewrite decide_False by tauto. done.
  - rewrite bool_decide_eq_false_2 by done. simpl.
    repeat split. intros i p Hi. by exists p.
Qed.

(** C10.  Whoever the caller is, when the processor reports the reference
    sent in the body as succeeded, confirm answers success and sets the
    payment row named by paymentId to succeeded, whatever reference that
    row stores; the other rows stay as they are, and when no row has that
    id nothing changes and the answer is success all the same. *)
Theorem confirm_marks_named_payment
    (db : Db) (userId : string) (stripe : Stripe.t) (body : ConfirmBody)
    (intent : Stripe.PaymentIntent) :
  Stripe.paymentIntents_retrieve stripe (body_paymentIntentId body) = Some intent →
  Stripe.status intent = "succeeded" →
  let db' := step db (Confirm userId stripe body) in
  (post_confirm db stripe body).1 = json (mkConfirmed true "Payment confirmed")
  ∧ answer db (Confirm userId stripe body) = 200
  ∧ (∀ (i : nat) p, payments db !! i = Some p →
       Payment.id p = body_paymentId body →
       payments db' !! i
       = Some (Payment.mk (Payment.id p) (Payment.serviceRequestId p)
                 (Payment.amount p) (Payment.stripePaymentIntentId p)
                 Payment.succeeded (Payment.createdAt p)))
  ∧ (∀ (i : nat) p, payments db !! i = Some p →
       Payment.id p ≠ body_paymentId body →
       payments db' !! i = Some p)
  ∧ ((body_paymentId body ∉ Payment.id <$> payments db) → db' = db).
Proof.
  intros Hret Hst db'. subst db'. simpl. unfold post_confirm.
  rewrite Hret. rewrite decide_True by done. simpl.
  split; [done|]. split; [done|]. split; [|split].
  - intros i p Hi Hid.
    rewrite (set_payment_status_lookup _ _ _ _ _ Hi). by rewrite decide_True.
  - intros i p Hi Hid.
    rewrite (set_payment_status_lookup _ _ _ _ _ Hi). by rewrite decide_False.
  - intros Habs. rewrite set_payment_status_absent by done. by destruct db.
Qed.

Lemma confirm_marks_named_payment_witness :
  Payment.stripePaymentIntentId
    <$> payments (run Scenario.completed Scenario.two_intents) !! 0%nat
  = Some "pi_1"
  ∧ payments (step (run Scenario.completed Scenario.two_intents)
                Scenario.tom_confirms) !! 0%nat
    = Some (Payment.mk "p1" "r1" 120 "pi_1" Payment.succeeded 5000).
Proof.
  split; [by vm_compute|].
  refine (proj1 (proj2 (proj2
    (confirm_marks_named_payment (run Scenario.completed Scenario.two_intents)
       "T2" (Scenario.stripe_paid ["pi_2"]) (mkConfirmBody "p1" "pi_2" [])
       (Stripe.mkIntent "pi_2" None "succeeded") _ _)))
    0%nat (Payment.mk "p1" "r1" 120 "pi_1" Payment.pending 5000) _ _).
  - by vm_compute.
  - done.
  - by vm_compute.
  - done.
Defined.

(** * Further properties of the server and of the pages *)

(** ** The listings *)

Lemma sorted_listing (P : ServiceRequest.t → Prop) `{∀ r, Decision (P r)}
    (rows : list ServiceRequest.t) :
  StronglySorted desc_createdAt (merge_sort desc_createdAt (filter P rows))
  ∧ merge_sort desc_createdAt (filter P rows) ≡ₚ filter P rows.
Proof.
  split; [apply (StronglySorted_merge_sort _)|apply merge_sort_Permutation].
Qed.

(** X1.  The listing of one's own requests depends on the caller's role: a
    client gets exactly the stored requests whose clientId is the caller, a
    technician exactly those whose technicianId is the caller, each newest
    first; a user without a role gets the empty list, and a caller without
    a user row gets 404. *)
Theorem listing_is_scoped_by_role (db : Db) (userId : string) :
  match getUser db userId with
  | None =>
      Queries.get_service_requests db userId = status_json 404 "User not found"
  | Some user =>
      ∃ l, Queries.get_service_requests db userId = json l
        ∧ StronglySorted desc_createdAt l
        ∧ (User.userType user = Some User.client →
           l ≡ₚ filter (λ r, ServiceRequest.clientId r = userId) (serviceRequests db))
        ∧ (User.userType user = Some User.technician →
           l ≡ₚ filter (λ r, ServiceRequest.technicianId r = Some userId)
                  (serviceRequests db))
        ∧ (User.userType user = None → l = [])
  end.
Proof.
  unfold Queries.get_service_requests.
  destruct (getUser db userId) as [user|]; [|done].
  destruct (User.userType user) as [[|]|]; eexists; (split; [done|]).
  - unfold getServiceRequestsByClient.
    destruct (sorted_listing (λ r, ServiceRequest.clientId r = userId)
                (serviceRequests db)) as [Hs Hp].
    repeat split; done.
  - unfold getServiceRequestsByTechnician.
    destruct (sorted_listing (λ r, ServiceRequest.technicianId r = Some userId)
                (serviceRequests db)) as [Hs Hp].
    repeat split; done.
  - repeat split; try done. constructor.
Qed.

(** *** Merging by id *)

Lemma map_set_keys {V} (m : list (string * V)) k v :
  (Queries.map_set m k v).*1
  = if decide (k ∈ m.*1) then m.*1 else (m.*1 ++ [k])%list.
Proof.
  induction m as [|[k' v'] m IH]; [done|].
  cbn [Queries.map_set]. rewrite fmap_cons. cbn [fst].
  destruct (decide (k' = k)) as [->|Hne].
  - rewrite fmap_cons. cbn [fst].
    rewrite decide_True; [done|apply list_elem_of_here].
  - rewrite fmap_cons, IH. cbn [fst].
    destruct (decide (k ∈ m.*1)) as [Hin|Hnin].
    + rewrite decide_True; [done|by apply list_elem_of_further].
    + rewrite decide_False; [done|].
      rewrite not_elem_of_cons. split; [congruence|done].
Qed.

Lemma map_set_elem {V} (m : list (string * V)) k v kv :
  kv ∈ Queries.map_set m k v → kv = (k, v) ∨ kv ∈ m.
Proof.
  induction m as [|[k' v'] m IH]; simpl.
  - intros ->%list_elem_of_singleton. by left.
  - destruct (decide (k' = k)) as [->|Hne].
    + intros [->|H]%elem_of_cons; [by left|].
      right. by apply list_elem_of_further.
    + intros [->|H]%elem_of_cons; [right; apply list_elem_of_here|].
      destruct (IH H) as [->|H']; [by left|].
      right. by apply list_elem_of_further.
Qed.

Lemma map_set_this {V} (m : list (string * V)) k v :
  (k, v) ∈ Queries.map_set m k v.
Proof.
  induction m as [|[k' v'] m IH]; simpl; [apply list_elem_of_here|].
  destruct (decide (k' = k)); [apply list_elem_of_here|].
  by apply list_elem_of_further.
Qed.

Lemma map_set_others {V} (m : list (string * V)) k v k' v' :
  (k', v') ∈ m → k' ≠ k → (k', v') ∈ Queries.map_set m k v.
Proof.
  induction m as [|[k0 v0] m IH]; simpl; [by intros ?%elem_of_nil|].
  intros [[= <- <-]|H]%elem_of_cons Hne.
  - rewrite decide_False by done. apply list_elem_of_here.
  - destruct (decide (k0 = k)); apply list_elem_of_further; auto.
Qed.

Lemma map_set_NoDup {V} (m : list (string * V)) k v :
  NoDup m.*1 → NoDup (Queries.map_set m k v).*1.
Proof.
  intros Hnd. rewrite map_set_keys. case_decide; [done|].
  apply NoDup_app. split; [done|]. split; [|apply NoDup_singleton].
  intros x Hx ->%list_elem_of_singleton. done.
Qed.

Lemma merged_NoDup (rows : list ServiceRequest.t) m :
  NoDup m.*1 →
  NoDup (foldl (λ m r, Queries.map_set m (ServiceRequest.id r) r) m rows).*1.
Proof.
  revert m. induction rows as [|r rows IH]; intros m Hm; simpl; [done|].
  by apply IH, map_set_NoDup.
Qed.

Lemma merged_elem (rows : list ServiceRequest.t) m k v :
  (k, v) ∈ foldl (λ m r, Queries.map_set m (ServiceRequest.id r) r) m rows →
  (k, v) ∈ m ∨ (v ∈ rows ∧ k = ServiceRequest.id v).
Proof.
  revert m. induction rows as [|r rows IH]; intros m; simpl; [by left|].
  intros H. destruct (IH _ H) as [H'|[Hin Hk]].
  - apply map_set_elem in H' as [[= -> ->]|H'].
    + right. split; [apply list_elem_of_here|done].
    + by left.
  - right. split; [by apply list_elem_of_further|done].
Qed.

Lemma merged_key_stays (rows : list ServiceRequest.t) m k v :
  (k, v) ∈ m →
  ∃ v', (k, v') ∈ foldl (λ m r, Queries.map_set m (ServiceRequest.id r) r) m rows.
Proof.
  revert m v. induction rows as [|r rows IH]; intros m v Hin; simpl; [eauto|].
  destruct (decide (k = ServiceRequest.id r)) as [->|Hne].
  - apply (IH _ r), map_set_this.
  - apply (IH _ v). by apply map_set_others.
Qed.

Lemma merged_covers (rows : list ServiceRequest.t) m r :
  r ∈ rows →
  ∃ v, (ServiceRequest.id r, v)
         ∈ foldl (λ m r, Queries.map_set m (ServiceRequest.id r) r) m rows.
Proof.
  revert m. induction rows as [|r0 rows IH]; intros m; simpl;
    [by intros ?%elem_of_nil|].
  intros [->|Hin]%elem_of_cons; [|by apply IH].
  apply (merged_key_stays _ _ _ r0), map_set_this.
Qed.

Lemma unique_by_id_spec (rows : list ServiceRequest.t) :
  NoDup (ServiceRequest.id <$> Queries.unique_by_id rows)
  ∧ (∀ r, r ∈ Queries.unique_by_id rows → r ∈ rows)
  ∧ (∀ r, r ∈ rows →
       ∃ v, v ∈ Queries.unique_by_id rows ∧ v ∈ rows
            ∧ ServiceRequest.id v = ServiceRequest.id r).
Proof.
  unfold Queries.unique_by_id.
  set (m := foldl _ [] rows).
  assert (Hkv : ∀ k v, (k, v) ∈ m → v ∈ rows ∧ k = ServiceRequest.id v).
  { intros k v H. apply merged_elem in H as [H|H]; [by apply elem_of_nil in H|done]. }
  assert (Hids : ServiceRequest.id <$> m.*2 = m.*1).
  { rewrite <- list_fmap_compose. apply list_fmap_ext.
    intros i [k v] Hi. simpl. symmetry.
    apply (Hkv k v), list_elem_of_lookup. eauto. }
  split; [|split].
  - rewrite Hids. apply merged_NoDup. simpl. apply NoDup_nil_2.
  - intros r [[k v] [-> Hin]]%list_elem_of_fmap. simpl. by apply (Hkv k v).
  - intros r Hr. destruct (merged_covers rows [] r Hr) as [v Hv].
    exists v. destruct (Hkv _ _ Hv) as [Hin Hk].
    split; [|done]. apply list_elem_of_fmap. by exists (ServiceRequest.id r, v).
Qed.

Lemma by_client_elem db u r :
  r ∈ getServiceRequestsByClient db u
  ↔ r ∈ serviceRequests db ∧ ServiceRequest.clientId r = u.
Proof.
  unfold getServiceRequestsByClient.
  rewrite merge_sort_Permutation, list_elem_of_filter. tauto.
Qed.

Lemma by_technician_elem db u r :
  r ∈ getServiceRequestsByTechnician db u
  ↔ r ∈ serviceRequests db ∧ ServiceRequest.technicianId r = Some u.
Proof.
  unfold getServiceRequestsByTechnician.
  rewrite merge_sort_Permutation, list_elem_of_filter. tauto.
Qed.

(** X2.  The jobs of a user, as client or as technician, are listed with
    each id once: every listed request is stored and has the caller as
    client or technician, and, ids being unique in the table, every such
    stored request is listed. *)
Theorem my_jobs_lists_each_job_once (db : Db) (userId : string) (user : User.t) :
  getUser db userId = Some user →
  ∃ l, Queries.get_my_jobs db userId = json l
    ∧ NoDup (ServiceRequest.id <$> l)
    ∧ (∀ r, r ∈ l →
         r ∈ serviceRequests db
         ∧ (ServiceRequest.clientId r = userId
            ∨ ServiceRequest.technicianId r = Some userId))
    ∧ (unique_ids db → ∀ r,
         r ∈ serviceRequests db →
         ServiceRequest.clientId r = userId
         ∨ ServiceRequest.technicianId r = Some userId →
         r ∈ l).
Proof.
  intros Hu. unfold Queries.get_my_jobs. rewrite Hu.
  eexists. split; [done|].
  destruct (unique_by_id_spec
              (getServiceRequestsByClient db userId
                 ++ getServiceRequestsByTechnician db userId))
    as (Hnd & Hsound & Hcomplete).
  assert (Hmine : ∀ r,
            r ∈ (getServiceRequestsByClient db userId
                   ++ getServiceRequestsByTechnician db userId)%list
            ↔ r ∈ serviceRequests db
              ∧ (ServiceRequest.clientId r = userId
                 ∨ ServiceRequest.technicianId r = Some userId)).
  { intros r. rewrite elem_of_app, by_client_elem, by_technician_elem. tauto. }
  split; [done|]. split.
  - intros r Hr. by apply Hmine, Hsound.
  - intros Huniq r Hr Hown.
    destruct (Hcomplete r) as (v & Hv & Hvin & Hid); [by apply Hmine|].
    apply Hmine in Hvin as [Hvrows _].
    by rewrite <- (row_by_id (serviceRequests db) v r Huniq Hvrows Hr Hid).
Qed.

Lemma my_jobs_lists_each_job_once_witness :
  getUser Scenario.created "T1" = Some Scenario.tina
  ∧ ∃ l, Queries.get_my_jobs Scenario.created "T1" = json l
      ∧ NoDup (ServiceRequest.id <$> l).
Proof.
  split; [by vm_compute|].
  destruct (my_jobs_lists_each_job_once Scenario.created "T1" Scenario.tina)
    as (l & Hl & Hnd & _); [by vm_compute|].
  exists l. by split.
Defined.

(** ** Creating requests *)

Lemma getUser_references db u user :
  getUser db u = Some user → references_users db u.
Proof.
  unfold getUser, references_users. intros H.
  apply head_Some_elem_of, list_elem_of_filter in H as [Hid Hin].
  apply list_elem_of_fmap. by exists user.
Qed.

Lemma createServiceRequest_row db request uuid now row db' :
  createServiceRequest db request uuid now = Some (row, db') →
  row = ServiceRequest.mk uuid (Insert.clientId request)
          (Insert.technicianId request) (Insert.serviceType request)
          (Insert.description request) (Insert.location request)
          (default "pending" (Insert.status request))
          (Insert.quotedPrice request) (Insert.technicianNotes request)
          (default (Some []) (Insert.images request)) now now
  ∧ db' = mkDb (users db) (serviceRequests db ++ [row]) (payments db)
  ∧ (uuid ∉ ServiceRequest.id <$> serviceRequests db).
Proof.
  unfold createServiceRequest. case_decide as Hok; [|done].
  intros [= <- <-]. tauto.
Qed.

Lemma filter_none {A} (P : A → Prop) `{∀ x, Decision (P x)} (l : list A) :
  (∀ x, x ∈ l → ¬ P x) → filter P l = [].
Proof.
  induction l as [|x l IH]; [done|]. intros Hno.
  rewrite filter_cons_False by (apply Hno, list_elem_of_here).
  apply IH. intros y Hy. by apply Hno, list_elem_of_further.
Qed.

Lemma getServiceRequest_fresh db row :
  (ServiceRequest.id row ∉ ServiceRequest.id <$> serviceRequests db) →
  getServiceRequest (mkDb (users db) (serviceRequests db ++ [row]) (payments db))
    (ServiceRequest.id row) = Some row.
Proof.
  intros Hfresh. unfold getServiceRequest. simpl. rewrite filter_app.
  rewrite filter_none.
  - simpl. by rewrite filter_cons_True by done.
  - intros r Hr Hid. apply Hfresh. rewrite <- Hid. by apply list_elem_of_fmap_2.
Qed.

(** X3.  A request that has just been created is found under its id: the
    read route returns the very row the create route answered with, whose
    clientId is the caller whatever the body said, and every request that
    could be read before is read unchanged. *)
Theorem created_request_is_found
    (db : Db) (userId : string) (body : Partial.t) (uuid : string) (now : Z)
    (row : ServiceRequest.t) (db' : Db) :
  post_service_requests db userId body uuid now = (json row, db') →
  Queries.get_service_request db' uuid = json row
  ∧ ServiceRequest.id row = uuid
  ∧ ServiceRequest.clientId row = userId
  ∧ ServiceRequest.createdAt row = now
  ∧ ServiceRequest.updatedAt row = now
  ∧ ServiceRequest.status row = default "pending" (Partial.status body)
  ∧ length (serviceRequests db') = S (length (serviceRequests db))
  ∧ ∀ rid r, getServiceRequest db rid = Some r →
             Queries.get_service_request db' rid = json r.
Proof.
  unfold post_service_requests. case_decide; [done|].
  destruct (insertServiceRequestSchema_parse _) as [data|] eqn:Hparse; [|done].
  destruct (createServiceRequest db data uuid now) as [[row' db'']|] eqn:Hc; [|done].
  intros [= -> ->].
  apply createServiceRequest_row in Hc as (Hrow & -> & Hfresh).
  unfold insertServiceRequestSchema_parse, with_clientId in Hparse. simpl in Hparse.
  destruct (Partial.serviceType body), (Partial.description body),
    (Partial.location body); try done.
  injection Hparse as <-. simpl in Hrow.
  assert (Hid : ServiceRequest.id row = uuid) by (by rewrite Hrow).
  unfold Queries.get_service_request.
  split; [|rewrite Hrow; simpl; repeat split; try done].
  - rewrite <- Hid in *. by rewrite getServiceRequest_fresh.
  - rewrite length_app. simpl. lia.
  - intros rid r Hr. by rewrite (getServiceRequest_insert _ _ _ _ Hr).
Qed.

Lemma created_request_is_found_witness :
  Queries.get_service_request
    (step Scenario.db0 (CreateRequest "C1" (Scenario.form "Plumber") "a1" 100)) "a1"
  = json (ServiceRequest.mk "a1" "C1" None "Plumber" "Please come soon" "Giza"
            "pending" None None (Some []) 100 100).
Proof.
  refine (proj1 (created_request_is_found Scenario.db0 "C1" (Scenario.form "Plumber")
                   "a1" 100 _ _ _)).
  by vm_compute.
Defined.

(** X5.  A job is recorded through the technician route exactly when the
    caller is a technician, the body has a service type, a description of
    at least ten UTF-16 code units and a location of at least three, and
    the id is new; a caller who is not a technician is answered 403, and a call
    that is not answered 200 changes nothing. *)
Theorem technician_job_outcome
    (db : Db) (userId : string) (body : Job) (uuid : string) (now : Z) :
  let res := post_technician_jobs db userId body uuid now in
  (code_of res.1 = 200 ↔
     (∃ user, getUser db userId = Some user
              ∧ User.userType user = Some User.technician)
     ∧ (∃ ty d l, body = mkJob (Some ty) (Some d) (Some l)
                  ∧ min_length 1 ty ∧ min_length 10 d ∧ min_length 3 l)
     ∧ (uuid ∉ ServiceRequest.id <$> serviceRequests db))
  ∧ (code_of res.1 ≠ 200 → res.2 = db)
  ∧ ((¬ ∃ user, getUser db userId = Some user
                ∧ User.userType user = Some User.technician) →
     res = (status_json 403 "Access denied. Technician role required.", db)).
Proof.
  intros res. subst res. unfold post_technician_jobs.
  destruct (getUser db userId) as [user|] eqn:Hu.
  2: { simpl. split; [|done].
       split; [done|]. by intros [(user & ? & _) _]. }
  destruct (decide (User.userType user = Some User.technician)) as [Ht|Ht].
  2: { simpl. split; [|split; [done|done]].
       split; [done|]. intros [(user' & [= <-] & ?) _]. done. }
  unfold minimalSchema_parse.
  destruct body as [[ty|] [d|] [l|]]; simpl;
    try (split; [|split; [done|intros []; eauto]];
         split; [done|]; intros (_ & (? & ? & ? & [= ] & _) & _)).
  destruct (decide (min_length 1 ty ∧ min_length 10 d ∧ min_length 3 l))
    as [Hlen|Hlen].
  2: { simpl. split; [|split; [done|intros []; eauto]].
       split; [done|]. intros (_ & (? & ? & ? & [= <- <- <-] & ?) & _). tauto. }
  unfold createServiceRequest. simpl.
  destruct (decide ((uuid ∉ ServiceRequest.id <$> serviceRequests db)
                    ∧ references_users db userId
                    ∧ references_users db userId ∧ True)) as [Hok|Hok]; simpl.
  - split; [|split; [done|intros []; eauto]].
    split; [|done]. intros _. split; [eauto|]. split; [|tauto].
    exists ty, d, l. tauto.
  - split; [|split; [done|intros []; eauto]].
    split; [done|]. intros (_ & _ & Hfresh). exfalso. apply Hok.
    pose proof (getUser_references _ _ _ Hu). tauto.
Qed.

Lemma available_elem db skills r :
  r ∈ getAvailableServiceRequests db skills
  ↔ r ∈ serviceRequests db
    ∧ ServiceRequest.status r = "pending"
    ∧ ServiceRequest.technicianId r = None
    ∧ (default [] skills = [] ∨ ServiceRequest.serviceType r ∈ default [] skills).
Proof.
  unfold getAvailableServiceRequests.
  destruct skills as [[|s ss]|]; simpl;
    rewrite ?list_elem_of_filter, merge_sort_Permutation, list_elem_of_filter.
  - tauto.
  - split; [tauto|]. intros (? & ? & ? & [?|?]); [done|tauto].
  - tauto.
Qed.

(** X6.  The payload of the request form, posted by a caller who has a
    user row, is stored as a pending request without technician or price
    and with the caller as client; from then on it is in the availability
    listing of exactly the skill sets that are empty or contain its
    service type. *)
Theorem form_request_is_stored_pending
    (db : Db) (userId : string) (user : User.t) (data : Pages.RequestForm)
    (uuid : string) (now : Z) :
  userId ≠ "" →
  getUser db userId = Some user →
  (uuid ∉ ServiceRequest.id <$> serviceRequests db) →
  let row := ServiceRequest.mk uuid userId None (Pages.form_serviceType data)
               (Pages.form_description data) (Pages.form_location data)
               "pending" None None (Some (Pages.form_images data)) now now in
  let db' := mkDb (users db) (serviceRequests db ++ [row]) (payments db) in
  post_service_requests db userId (Pages.createRequest_payload data) uuid now
  = (json row, db')
  ∧ ∀ skills, row ∈ getAvailableServiceRequests db' skills
              ↔ (default [] skills = []
                 ∨ Pages.form_serviceType data ∈ default [] skills).
Proof.
  intros Hne Hu Hfresh row db'. split.
  - unfold post_service_requests. rewrite decide_False by done.
    unfold insertServiceRequestSchema_parse, with_clientId,
      Pages.createRequest_payload, createServiceRequest. simpl.
    rewrite decide_True; [done|].
    split; [done|]. split; [by eapply getUser_references|done].
  - intros skills. rewrite available_elem. simpl.
    split; [tauto|]. intros H. split; [|done].
    apply elem_of_app. right. apply list_elem_of_here.
Qed.

Lemma form_request_is_stored_pending_witness :
  Pages.formSchema
    (Pages.mkRequestForm "Alice A" "0100200300" "Plumber" "Please come soon"
       "Giza, Egypt" [])
  ∧ (post_service_requests Scenario.db0 "C1"
       (Pages.createRequest_payload
          (Pages.mkRequestForm "Alice A" "0100200300" "Plumber" "Please come soon"
             "Giza, Egypt" [])) "a1" 100).1
    = json (ServiceRequest.mk "a1" "C1" None "Plumber" "Please come soon"
              "Giza, Egypt" "pending" None None (Some []) 100 100).
Proof.
  split; [unfold Pages.formSchema, min_length; simpl; lia|].
  refine (f_equal fst (proj1 (form_request_is_stored_pending Scenario.db0 "C1"
            Scenario.alice _ "a1" 100 _ _ _))).
  - done.
  - by vm_compute.
  - apply not_elem_of_nil.
Defined.

(** ** Nothing is deleted *)

(** What a call leaves behind, by its answer. *)
Lemma step_outcome db op :
  (answer db op ≠ 200 ∧ step db op = db)
  ∨ (answer db op = 200
     ∧ match op with
       | CreateRequest _ _ _ _ | CreateJob _ _ _ _ =>
           ∃ row, step db op
                  = mkDb (users db) (serviceRequests db ++ [row]) (payments db)
       | Patch _ rid upd now =>
           step db op
           = mkDb (users db) (update_where rid upd now <$> serviceRequests db)
               (payments db)
       | CreateIntent _ _ _ _ _ =>
           ∃ p, step db op
                = mkDb (users db) (serviceRequests db) (payments db ++ [p])
       | Confirm _ _ body =>
           step db op = db
           ∨ step db op
             = mkDb (users db) (serviceRequests db)
                 (set_payment_status (body_paymentId body) Payment.succeeded
                    <$> payments db)
       end).
Proof.
  destruct op as [u body uuid now|u body uuid now|u rid upd now
                 |u stripe sid uuid now|u stripe body]; simpl.
  - unfold post_service_requests, createServiceRequest.
    repeat (case_match; simpl; try (by left)).
    simplify_eq. right. eauto.
  - unfold post_technician_jobs, createServiceRequest.
    repeat (case_match; simpl; try (by left)).
    simplify_eq. right. eauto.
  - rewrite patch_cases.
    repeat (case_match; simpl; try (by left)). by right.
  - unfold post_create_intent, createPayment.
    repeat (case_match; simpl; try (by left)).
    simplify_eq. right. eauto.
  - unfold post_confirm, updatePaymentStatus.
    repeat (case_match; simpl; try (by left)); right; eauto.
Qed.

(** X7.  No call of the routes that write requests and payments deletes
    a row, and a call that is not answered 200 changes nothing.  After any
    call the stored requests are, whatever their order, the former ones
    and at most one new request, which there is exactly when the call is
    one of the two creations and is answered 200; a former request has
    kept its creation time and, unless the call is an update of this very
    request whose body names an id, its id.  Likewise the stored payments
    are the former ones, with their ids, requests, amounts, intent
    references and creation times, and at most one new payment, which
    there is exactly when the call opens a payment intent and is answered
    200. *)
Theorem no_call_deletes_a_request_or_a_payment (db : Db) (op : Op) :
  (answer db op ≠ 200 → step db op = db)
  ∧ ∃ (f : ServiceRequest.t → ServiceRequest.t) (g : Payment.t → Payment.t)
      (new_requests : list ServiceRequest.t) (new_payments : list Payment.t),
      serviceRequests (step db op)
        ≡ₚ ((f <$> serviceRequests db) ++ new_requests)%list
      ∧ payments (step db op) ≡ₚ ((g <$> payments db) ++ new_payments)%list
      ∧ (length new_requests ≤ 1)%nat
      ∧ (length new_payments ≤ 1)%nat
      ∧ (length new_requests = 1%nat ↔ creates_request op ∧ answer db op = 200)
      ∧ (length new_payments = 1%nat ↔ opens_payment op ∧ answer db op = 200)
      ∧ (∀ r, ServiceRequest.createdAt (f r) = ServiceRequest.createdAt r
              ∧ (ServiceRequest.id (f r) = ServiceRequest.id r
                 ∨ ∃ u upd now, op = Patch u (ServiceRequest.id r) upd now
                                ∧ Partial.id upd = Some (ServiceRequest.id (f r))))
      ∧ (∀ p, Payment.id (g p) = Payment.id p
              ∧ Payment.serviceRequestId (g p) = Payment.serviceRequestId p
              ∧ Payment.amount (g p) = Payment.amount p
              ∧ Payment.stripePaymentIntentId (g p) = Payment.stripePaymentIntentId p
              ∧ Payment.createdAt (g p) = Payment.createdAt p).
Proof.
  split.
  { intros Hcode. by destruct (step_outcome db op) as [[_ ?]|[? _]]. }
  destruct (step_outcome db op) as [[Hcode ->]|[Hcode Hstep]].
  { exists id, id, [], [].
    rewrite !list_fmap_id, !app_nil_r. simpl.
    repeat split; auto; try lia; try done; by intros [_ ?]. }
  destruct op as [u body uuid now|u body uuid now|u rid upd now
                 |u stripe sid uuid now|u stripe body].
  - destruct Hstep as [row ->]. exists id, id, [row], []. simpl.
    rewrite !list_fmap_id, app_nil_r.
    repeat split; auto; try lia; try done; by intros [[] _].
  - destruct Hstep as [row ->]. exists id, id, [row], []. simpl.
    rewrite !list_fmap_id, app_nil_r.
    repeat split; auto; try lia; try done; by intros [[] _].
  - rewrite Hstep. exists (update_where rid upd now), id, [], []. simpl.
    rewrite list_fmap_id, !app_nil_r.
    repeat split; auto; try lia; try done; try (by intros [[] _]).
    + unfold update_where. by case_decide.
    + rewrite update_where_id.
      destruct (decide (ServiceRequest.id r = rid)) as [->|_]; [|by left].
      destruct (Partial.id upd) as [new|] eqn:Hnew; [|by left].
      right. by exists u, upd, now.
  - destruct Hstep as [p ->]. exists id, id, [], [p]. simpl.
    rewrite !list_fmap_id, app_nil_r.
    repeat split; auto; try lia; try done; by intros [[] _].
  - assert (Hg : ∀ p,
      let g := set_payment_status (body_paymentId body) Payment.succeeded in
      Payment.id (g p) = Payment.id p
      ∧ Payment.serviceRequestId (g p) = Payment.serviceRequestId p
      ∧ Payment.amount (g p) = Payment.amount p
      ∧ Payment.stripePaymentIntentId (g p) = Payment.stripePaymentIntentId p
      ∧ Payment.createdAt (g p) = Payment.createdAt p).
    { intros p. simpl. unfold set_payment_status. by case_decide. }
    destruct Hstep as [->| ->].
    + exists id, id, [], [].
      rewrite !list_fmap_id, !app_nil_r. simpl.
      repeat split; auto; try lia; try done; by intros [[] _].
    + exists id, (set_payment_status (body_paymentId body) Payment.succeeded), [], [].
      simpl. rewrite list_fmap_id, !app_nil_r.
      repeat split; auto; try lia; try done; try (by intros [[] _]);
        apply Hg.
Qed.

(** ** One payment after another *)

Lemma post_create_intent_json db stripe rid uuid now created db1 :
  post_create_intent db stripe rid uuid now = (json created, db1) →
  ∃ request price intent,
    getServiceRequest db rid = Some request
    ∧ ServiceRequest.status request = "completed"
    ∧ ServiceRequest.quotedPrice request = Some price
    ∧ price ≠ 0
    ∧ (uuid ∉ Payment.id <$> payments db)
    ∧ created = mkIntentCreated (Stripe.client_secret intent) uuid
    ∧ db1 = mkDb (users db) (serviceRequests db)
              (payments db
                 ++ [Payment.mk uuid rid price (Stripe.id intent) Payment.pending now]).
Proof.
  unfold post_create_intent.
  destruct (getServiceRequest db rid) as [request|]; [|done].
  case_decide as Hs; [done|]. case_decide as Hq; [done|]. case_decide; [done|].
  destruct (Stripe.paymentIntents_create _ _) as [intent|]; [|done].
  unfold createPayment. simpl. case_decide as Hok; [|done].
  intros [= <- <-].
  destruct (ServiceRequest.quotedPrice request) as [price|] eqn:Hprice;
    [|by destruct Hq].
  exists request, price, intent. simpl in *.
  repeat split; try done; try tauto;
    by destruct (decide (ServiceRequest.status request = "completed")).
Qed.

Lemma first_payment_of_new_request db rid p :
  getPaymentByServiceRequest db rid = None →
  Payment.serviceRequestId p = rid →
  getPaymentByServiceRequest
    (mkDb (users db) (serviceRequests db) (payments db ++ [p])) rid = Some p.
Proof.
  unfold getPaymentByServiceRequest. simpl. intros Hnone Hrid.
  apply head_None in Hnone. rewrite filter_app, Hnone. simpl.
  by rewrite filter_cons_True.
Qed.

(** X8.  For a request that has no payment yet, the payment stored by a
    successful createIntent is the one the payment route returns, pending;
    once it has been confirmed with a succeeded processor status the route
    returns it as succeeded, and every further createIntent for the request
    is answered 400 "Payment already completed" and stores nothing. *)
Theorem confirmed_first_payment_blocks_further_intents
    (db : Db) (stripe1 : Stripe.t) (rid uuid : string) (now : Z)
    (created : IntentCreated) (db1 : Db)
    (stripe2 : Stripe.t) (body : ConfirmBody) (intent : Stripe.PaymentIntent) :
  getPaymentByServiceRequest db rid = None →
  post_create_intent db stripe1 rid uuid now = (json created, db1) →
  body_paymentId body = paymentId created →
  Stripe.paymentIntents_retrieve stripe2 (body_paymentIntentId body) = Some intent →
  Stripe.status intent = "succeeded" →
  let db2 := (post_confirm db1 stripe2 body).2 in
  (∃ p, Queries.get_payment db1 rid = json (Some p)
        ∧ Payment.id p = paymentId created
        ∧ Payment.status p = Payment.pending)
  ∧ (∃ p, Queries.get_payment db2 rid = json (Some p)
          ∧ Payment.id p = paymentId created
          ∧ Payment.status p = Payment.succeeded)
  ∧ ∀ stripe3 uuid' now',
      post_create_intent db2 stripe3 rid uuid' now'
      = (status_json 400 "Payment already completed", db2).
Proof.
  intros Hnone Hcreate Hpid Hret Hst db2.
  destruct (post_create_intent_json _ _ _ _ _ _ _ Hcreate)
    as (request & price & pi & Hget & Hs & Hq & Hne & Hfresh & -> & ->).
  simpl in Hpid.
  set (p := Payment.mk uuid rid price (Stripe.id pi) Payment.pending now).
  assert (Hfirst : getPaymentByServiceRequest
                     (mkDb (users db) (serviceRequests db) (payments db ++ [p])) rid
                   = Some p) by (by apply first_payment_of_new_request).
  assert (Hdb2 : db2 = mkDb (users db) (serviceRequests db)
                         (payments db
                            ++ [Payment.mk uuid rid price (Stripe.id pi)
                                  Payment.succeeded now])).
  { subst db2. unfold post_confirm. rewrite Hret, decide_True by done.
    unfold updatePaymentStatus. simpl. f_equal.
    rewrite fmap_app, Hpid, set_payment_status_absent by done.
    simpl. unfold set_payment_status. simpl. by rewrite decide_True. }
  split; [|split].
  - exists p. unfold Queries.get_payment. by rewrite Hfirst.
  - eexists. unfold Queries.get_payment. rewrite Hdb2.
    rewrite first_payment_of_new_request by done. done.
  - intros stripe3 uuid' now'. rewrite Hdb2.
    set (paid := mkDb _ _ _).
    assert (Hget2 : getServiceRequest paid rid = Some request) by exact Hget.
    unfold post_create_intent. rewrite Hget2.
    rewrite decide_False by (by intros ?).
    rewrite decide_False by (by rewrite Hq).
    subst paid. by rewrite first_payment_of_new_request by done.
Qed.

Lemma confirmed_first_payment_blocks_further_intents_witness :
  post_create_intent
    (step (step Scenario.completed
             (CreateIntent "T1" (Scenario.stripe_opens "pi_1" "secret_1") "r1" "p1" 5000))
       (Confirm "T1" (Scenario.stripe_paid ["pi_1"]) (mkConfirmBody "p1" "pi_1" [])))
    (Scenario.stripe_opens "pi_2" "secret_2") "r1" "p2" 6000
  = (status_json 400 "Payment already completed",
     step (step Scenario.completed
             (CreateIntent "T1" (Scenario.stripe_opens "pi_1" "secret_1") "r1" "p1" 5000))
       (Confirm "T1" (Scenario.stripe_paid ["pi_1"]) (mkConfirmBody "p1" "pi_1" []))).
Proof.
  refine (proj2 (proj2 (confirmed_first_payment_blocks_further_intents
    Scenario.completed (Scenario.stripe_opens "pi_1" "secret_1") "r1" "p1" 5000
    (mkIntentCreated (Some "secret_1") "p1") _
    (Scenario.stripe_paid ["pi_1"]) (mkConfirmBody "p1" "pi_1" [])
    (Stripe.mkIntent "pi_1" None "succeeded") _ _ _ _ _)) _ _ _).
  - by vm_compute.
  - by vm_compute.
  - done.
  - by vm_compute.
  - done.
Defined.

(** ** The buttons of the request page against the server *)

(** X10.  For the client who owns a stored request, the page offers the
    pay button exactly when the server would not refuse the payment intent
    for the state of the request: createIntent answers neither "Service
    request must be completed before payment" nor "No quoted price
    available" if and only if the button is rendered. *)
Theorem pay_button_matches_server_guards
    (db : Db) (stripe : Stripe.t) (rid uuid : string) (now : Z)
    (request : ServiceRequest.t) (user : User.t) :
  getServiceRequest db rid = Some request →
  Pages.isClient (Some user) →
  Pages.isMyRequest (Some user) request →
  Pages.button_pay_now (Some user) request
  ↔ (post_create_intent db stripe rid uuid now).1
      ≠ status_json 400 "Service request must be completed before payment"
    ∧ (post_create_intent db stripe rid uuid now).1
      ≠ status_json 400 "No quoted price available".
Proof.
  intros Hget Hclient Hmine. unfold Pages.button_pay_now, post_create_intent.
  rewrite Hget.
  destruct (decide (ServiceRequest.status request ≠ "completed")) as [Hs|Hs].
  { simpl. split; [intros (_ & _ & ? & _); done|intros [? _]; done]. }
  destruct (decide (falsy (ServiceRequest.quotedPrice request))) as [Hq|Hq].
  { simpl. split; [intros (_ & _ & _ & ?); done|intros [_ ?]; done]. }
  split; [intros _|].
  - repeat (case_match; simpl); split; done.
  - intros _. repeat split; try done.
    by destruct (decide (ServiceRequest.status request = "completed")).
Qed.

Lemma pay_button_matches_server_guards_witness :
  Pages.button_pay_now (Some (User.mk "T1" (Some User.client) None))
    (ServiceRequest.mk "r1" "T1" (Some "T1") "Plumber" "Kitchen sink leaks" "Cairo"
       "completed" (Some 120) (Some "Fixed leak") (Some []) 1000 4000)
  ↔ (post_create_intent Scenario.completed
       (Scenario.stripe_opens "pi_1" "secret_1") "r1" "p1" 5000).1
      ≠ status_json 400 "Service request must be completed before payment"
    ∧ (post_create_intent Scenario.completed
         (Scenario.stripe_opens "pi_1" "secret_1") "r1" "p1" 5000).1
      ≠ status_json 400 "No quoted price available".
Proof.
  apply (pay_button_matches_server_guards Scenario.completed).
  - by vm_compute.
  - done.
  - done.
Defined.

(** X11.  When the page renders the start button, respectively the
    complete button, for a user who has a user row, the update the button
    sends is applied: the request becomes in progress, respectively
    completed with the price and the summary entered, and keeps its
    technician. *)
Theorem start_and_complete_buttons_are_served
    (db : Db) (user : User.t) (rid : string) (request : ServiceRequest.t) (now : Z) :
  getServiceRequest db rid = Some request →
  is_Some (getUser db (User.id user)) →
  (Pages.button_start_job (Some user) request →
     ∃ r', patch_service_request db (User.id user) rid
             (updateStatusMutation "in_progress") now
           = (json (Some r'),
              mkDb (users db)
                (update_where rid (updateStatusMutation "in_progress") now
                   <$> serviceRequests db) (payments db))
       ∧ ServiceRequest.status r' = "in_progress"
       ∧ ServiceRequest.technicianId r' = Some (User.id user))
  ∧ (∀ price notes,
       Pages.button_complete_job (Some user) request →
       opt_ok int4 price →
       ∃ r', patch_service_request db (User.id user) rid
               (completeJobMutation price notes) now
             = (json (Some r'),
                mkDb (users db)
                  (update_where rid (completeJobMutation price notes) now
                     <$> serviceRequests db) (payments db))
         ∧ ServiceRequest.status r' = "completed"
         ∧ ServiceRequest.quotedPrice r' = price
         ∧ ServiceRequest.technicianNotes r' = Some notes
         ∧ ServiceRequest.technicianId r' = Some (User.id user)).
Proof.
  intros Hget Hu. split.
  - intros (_ & Hmine & _). simpl in Hmine.
    destruct (patch_applied db (User.id user) rid
                (updateStatusMutation "in_progress") now)
      as (r & Hr & ->).
    { exists request. repeat split; try done. by right. }
    assert (r = request) as -> by congruence.
    eexists. split; [done|]. simpl. done.
  - intros price notes (_ & Hmine & _) Hprice. simpl in Hmine.
    destruct (patch_applied db (User.id user) rid
                (completeJobMutation price notes) now)
      as (r & Hr & ->).
    { exists request. repeat split; try done. by right. }
    assert (r = request) as -> by congruence.
    eexists. split; [done|]. simpl. done.
Qed.

Lemma start_and_complete_buttons_are_served_witness :
  Pages.button_start_job (Some Scenario.tina)
    (ServiceRequest.mk "r1" "T1" (Some "T1") "Plumber" "Kitchen sink leaks" "Cairo"
       "accepted" None None (Some []) 1000 2000)
  ∧ code_of (patch_service_request Scenario.accepted "T1" "r1"
               (updateStatusMutation "in_progress") 3000).1 = 200.
Proof.
  assert (Hb : Pages.button_start_job (Some Scenario.tina)
    (ServiceRequest.mk "r1" "T1" (Some "T1") "Plumber" "Kitchen sink leaks" "Cairo"
       "accepted" None None (Some []) 1000 2000)) by done.
  split; [exact Hb|].
  destruct (proj1 (start_and_complete_buttons_are_served Scenario.accepted
              Scenario.tina "r1" _ 3000 ltac:(by vm_compute)
              ltac:(by vm_compute; eauto)) Hb) as (r' & Heq & _).
  simpl in Heq. by rewrite Heq.
Defined.

(** X12.  When the page renders the accept button for a user who has a
    user row, the accept it sends is applied only if that user is the
    client of the request; for every other request the answer is 403 and
    nothing changes. *)
Theorem accept_button_is_served_only_to_the_client
    (db : Db) (user : User.t) (rid : string) (request : ServiceRequest.t) (now : Z) :
  getServiceRequest db rid = Some request →
  is_Some (getUser db (User.id user)) →
  accept_button (Some user) request →
  (code_of (patch_service_request db (User.id user) rid
              (acceptJobMutation (Some user)) now).1 = 200
   ↔ ServiceRequest.clientId request = User.id user)
  ∧ (ServiceRequest.clientId request ≠ User.id user →
     patch_service_request db (User.id user) rid (acceptJobMutation (Some user)) now
     = (status_json 403 "Access denied", db)).
Proof.
  intros Hget [u Hu] (_ & Hnot & _). simpl in Hnot.
  pose proof (getUser_references _ _ _ Hu) as Href.
  rewrite patch_cases, Hget.
  rewrite decide_False by congruence.
  destruct (decide (ServiceRequest.clientId request = User.id user)) as [Hc|Hc].
  - rewrite decide_False by tauto.
    rewrite decide_True by (by unfold update_ok). simpl. tauto.
  - rewrite decide_True by done. simpl. split; [|done]. split; done.
Qed.

Lemma accept_button_is_served_only_to_the_client_witness :
  accept_button (Some Scenario.tom)
    (ServiceRequest.mk "a2" "C1" None "Electrician" "Please come soon" "Giza"
       "pending" None None (Some []) 200 200)
  ∧ patch_service_request Scenario.posted "T2" "a2"
      (acceptJobMutation (Some Scenario.tom)) 400
    = (status_json 403 "Access denied", Scenario.posted).
Proof.
  assert (Hb : accept_button (Some Scenario.tom)
    (ServiceRequest.mk "a2" "C1" None "Electrician" "Please come soon" "Giza"
       "pending" None None (Some []) 200 200)).
  { split; [done|]. split; [|done]. by intros [=]. }
  split; [exact Hb|].
  apply (proj2 (accept_button_is_served_only_to_the_client Scenario.posted
                  Scenario.tom "a2" _ 400 ltac:(by vm_compute)
                  ltac:(by vm_compute; eauto) Hb)).
  done.
Defined.

(** X13.  The four action buttons of the request page exclude one another:
    for any user and request at most one of accept, start, complete and pay
    is rendered. *)
Theorem action_buttons_are_exclusive (user : option User.t) (request : ServiceRequest.t) :
  ¬ (accept_button user request ∧ Pages.button_start_job user request)
  ∧ ¬ (accept_button user request ∧ Pages.button_complete_job user request)
  ∧ ¬ (accept_button user request ∧ Pages.button_pay_now user request)
  ∧ ¬ (Pages.button_start_job user request ∧ Pages.button_complete_job user request)
  ∧ ¬ (Pages.button_start_job user request ∧ Pages.button_pay_now user request)
  ∧ ¬ (Pages.button_complete_job user request ∧ Pages.button_pay_now user request).
Proof.
  assert (Ha : accept_button user request
               → ServiceRequest.status request = "pending")
    by (by intros (_ & _ & ?)).
  assert (Hs : Pages.button_start_job user request
               → ServiceRequest.status request = "accepted")
    by (by intros (_ & _ & ?)).
  assert (Hc : Pages.button_complete_job user request
               → ServiceRequest.status request = "in_progress")
    by (by intros (_ & _ & ?)).
  assert (Hp : Pages.button_pay_now user request
               → ServiceRequest.status request = "completed")
    by (by intros (_ & _ & ? & _)).
  repeat split; intros [H1 H2];
    try apply Ha in H1; try apply Hs in H1; try apply Hc in H1;
    try apply Hs in H2; try apply Hc in H2; try apply Hp in H2; congruence.
Qed.

(** ** Skills *)

(** X14.  Toggling a skill flips its membership and nothing else: after
    the toggle the skill is in the list exactly when it was not before,
    every other label is in the list exactly when it was before, and a
    list without repetitions stays without repetitions. *)
Theorem toggleSkill_flips_one_skill
    (user_skills : option (list string)) (skill : string) :
  (skill ∈ Pages.toggleSkill user_skills skill ↔ skill ∉ default [] user_skills)
  ∧ (∀ s, s ≠ skill →
       (s ∈ Pages.toggleSkill user_skills skill ↔ s ∈ default [] user_skills))
  ∧ (NoDup (default [] user_skills) → NoDup (Pages.toggleSkill user_skills skill)).
Proof.
  unfold Pages.toggleSkill. set (cur := default [] user_skills).
  destruct (decide (skill ∈ cur)) as [Hin|Hnin]; split; [|split| |split].
  - rewrite list_elem_of_filter. split; [intros [? _]; done|done].
  - intros s Hne. rewrite list_elem_of_filter. tauto.
  - apply NoDup_filter.
  - rewrite elem_of_app, list_elem_of_singleton. tauto.
  - intros s Hne. rewrite elem_of_app, list_elem_of_singleton. tauto.
  - intros Hnd. apply NoDup_app. split; [done|]. split; [|apply NoDup_singleton].
    intros x Hx ->%list_elem_of_singleton. done.
Qed.

Lemma filter_all {A} (P : A → Prop) `{∀ x, Decision (P x)} (l : list A) :
  (∀ x, x ∈ l → P x) → filter P l = l.
Proof.
  induction l as [|x l IH]; [done|]. intros Hall.
  rewrite filter_cons_True by (apply Hall, list_elem_of_here).
  f_equal. apply IH. intros y Hy. by apply Hall, list_elem_of_further.
Qed.

(** X15.  Toggling the same skill twice restores the skills: the list
    itself when the skill was not in it, and, for a list without
    repetitions that had the skill, the same skills with that one moved to
    the end. *)
Theorem toggleSkill_twice (user_skills : option (list string)) (skill : string) :
  let once := Pages.toggleSkill user_skills skill in
  let twice := Pages.toggleSkill (Some once) skill in
  (skill ∉ default [] user_skills → twice = default [] user_skills)
  ∧ (skill ∈ default [] user_skills → NoDup (default [] user_skills) →
     twice = (filter (λ s, s ≠ skill) (default [] user_skills) ++ [skill])%list
     ∧ twice ≡ₚ default [] user_skills).
Proof.
  intros once twice. subst once twice. unfold Pages.toggleSkill. simpl.
  set (cur := default [] user_skills). split.
  - intros Hnin. rewrite (decide_False (P := skill ∈ cur)) by done.
    rewrite decide_True by (apply elem_of_app; right; apply list_elem_of_here).
    rewrite filter_app, filter_all.
    + rewrite filter_cons_False by (by intros ?). simpl. apply app_nil_r.
    + intros x Hx ->. done.
  - intros Hin Hnd. rewrite (decide_True (P := skill ∈ cur)) by done.
    rewrite decide_False by (rewrite list_elem_of_filter; tauto).
    split; [done|].
    clear -Hin Hnd. induction cur as [|x cur IH]; [by apply elem_of_nil in Hin|].
    apply NoDup_cons in Hnd as [Hx Hnd].
    destruct (decide (x = skill)) as [->|Hne].
    + rewrite filter_cons_False by (by intros ?).
      rewrite filter_all by (intros y Hy ->; done).
      symmetry. apply Permutation_cons_append.
    + rewrite filter_cons_True by done. simpl. constructor.
      apply IH; [|done]. by apply elem_of_cons in Hin as [->|Hin].
Qed.

(** X16.  The skill filter of the technician dashboard removes nothing
    from the list the availability route answered to the same technician:
    the route has already kept only the requests that filter keeps. *)
Theorem dashboard_skill_filter_is_redundant (db : Db) (userId : string) (user : User.t) :
  getUser db userId = Some user →
  User.userType user = Some User.technician →
  ∃ l, get_available db userId = json l
    ∧ Pages.skillFiltered (User.skills user) l = l.
Proof.
  intros Hu Ht. unfold get_available. rewrite Hu, decide_True by done.
  eexists. split; [done|].
  unfold Pages.skillFiltered. apply filter_all.
  intros r Hr. apply available_elem in Hr as (_ & _ & _ & Hskill).
  simpl in *. done.
Qed.

Lemma dashboard_skill_filter_is_redundant_witness :
  ∃ l, get_available Scenario.posted "T1" = json l
    ∧ Pages.skillFiltered (User.skills Scenario.tina) l = l.
Proof.
  apply (dashboard_skill_filter_is_redundant Scenario.posted "T1" Scenario.tina).
  - by vm_compute.
  - done.
Defined.

(** ** The counters of the dashboards *)

Lemma count_status_cons (P : string → Prop) `{∀ s, Decision (P s)} j jobs :
  Pages.count_status P (j :: jobs)
  = ((if decide (P (ServiceRequest.status j)) then 1 else 0)
     + Pages.count_status P jobs)%nat.
Proof.
  unfold Pages.count_status. rewrite filter_cons. by case_decide.
Qed.

Lemma status_indicator (s : string) :
  let c := ((if decide (s = "pending") then 1 else 0)
            + (if decide (s = "accepted") then 1 else 0)
            + (if decide (s = "in_progress") then 1 else 0)
            + (if decide (s = "completed") then 1 else 0)
            + (if decide (s = "cancelled") then 1 else 0))%nat in
  (c ≤ 1)%nat ∧ (c = 1%nat ↔ s ∈ status_enum).
Proof.
  unfold status_enum. rewrite !elem_of_cons, elem_of_nil.
  destruct (decide (s = "pending")) as [->|?]; [simpl; split; [lia|tauto]|].
  destruct (decide (s = "accepted")) as [->|?]; [simpl; split; [lia|tauto]|].
  destruct (decide (s = "in_progress")) as [->|?]; [simpl; split; [lia|tauto]|].
  destruct (decide (s = "completed")) as [->|?]; [simpl; split; [lia|tauto]|].
  destruct (decide (s = "cancelled")) as [->|?]; [simpl; split; [lia|tauto]|].
  simpl. split; [lia|]. split; [lia|tauto].
Qed.

(** X17.  On the landing page the five status counters never add up to
    more than the total, and they add up to the total exactly when every
    job has one of the five statuses. *)
Theorem landing_totals_partition (jobs : list ServiceRequest.t) :
  let t := Pages.totals jobs in
  (Pages.pending t + Pages.accepted t + Pages.in_progress t
   + Pages.completed t + Pages.cancelled t ≤ Pages.total t)%nat
  ∧ ((Pages.pending t + Pages.accepted t + Pages.in_progress t
      + Pages.completed t + Pages.cancelled t = Pages.total t)%nat
     ↔ Forall (λ j, ServiceRequest.status j ∈ status_enum) jobs).
Proof.
  simpl. induction jobs as [|j jobs [IHle IHeq]].
  - split; [done|]. split; [constructor|done].
  - rewrite !count_status_cons, Forall_cons. simpl length.
    destruct (status_indicator (ServiceRequest.status j)) as [Hle Heq].
    simpl in Hle, Heq. rewrite <- Heq, <- IHeq. lia.
Qed.

(** X18.  On the client dashboard the counters pending, in progress and
    completed leave out exactly the requests whose status is none of
    pending, accepted, in_progress, completed: together with these they
    add up to the total. *)
Theorem client_stats_partition (requests : list ServiceRequest.t) :
  let st := Pages.client_stats requests in
  (Pages.cs_pending st + Pages.cs_inProgress st + Pages.cs_completed st
   + Pages.count_status
       (λ s, s ∉ ["pending"; "accepted"; "in_progress"; "completed"]) requests
   = Pages.cs_total st)%nat.
Proof.
  simpl. induction requests as [|j requests IH]; [done|].
  rewrite !count_status_cons. simpl length.
  assert (Hj : ((if decide (ServiceRequest.status j = "pending") then 1 else 0)
    + (if decide (ServiceRequest.status j = "in_progress"
                  ∨ ServiceRequest.status j = "accepted") then 1 else 0)
    + (if decide (ServiceRequest.status j = "completed") then 1 else 0)
    + (if decide (ServiceRequest.status j
                  ∉ ["pending"; "accepted"; "in_progress"; "completed"])
       then 1 else 0) = 1)%nat).
  { generalize (ServiceRequest.status j). intros s.
    destruct (decide (s = "pending")) as [->|?]; [done|].
    destruct (decide (s = "accepted")) as [->|?]; [done|].
    destruct (decide (s = "in_progress")) as [->|?]; [done|].
    destruct (decide (s = "completed")) as [->|?]; [done|].
    rewrite (decide_False (P := s = "in_progress" ∨ s = "accepted")) by tauto.
    rewrite decide_True; [done|].
    rewrite !not_elem_of_cons. repeat split; try done. apply not_elem_of_nil. }
  lia.
Qed.

(** X19.  The technician dashboard and the job page agree: the counter of
    active jobs is the number of cards on the active tab, the counter of
    completed jobs the number of cards on the completed tab, and no job is
    on both tabs. *)
Theorem technician_counters_match_tabs (myJobs : list ServiceRequest.t) :
  Pages.ts_active (Pages.tech_stats myJobs)
  = length (Pages.filteredJobs Pages.active myJobs)
  ∧ Pages.ts_completed (Pages.tech_stats myJobs)
    = length (Pages.filteredJobs Pages.completed_tab myJobs)
  ∧ (∀ j, j ∈ Pages.filteredJobs Pages.active myJobs →
          j ∉ Pages.filteredJobs Pages.completed_tab myJobs)
  ∧ (length (Pages.filteredJobs Pages.active myJobs)
     + length (Pages.filteredJobs Pages.completed_tab myJobs)
     ≤ Pages.ts_total (Pages.tech_stats myJobs))%nat.
Proof.
  simpl. unfold Pages.count_status.
  assert (Hact : filter (λ j, ServiceRequest.status j = "accepted"
                              ∨ ServiceRequest.status j = "in_progress") myJobs
          = filter (λ j, ServiceRequest.status j ∈ ["accepted"; "in_progress"]) myJobs).
  { apply list_filter_iff. intros j.
    rewrite !elem_of_cons, elem_of_nil. tauto. }
  split; [by rewrite Hact|]. split; [done|]. split.
  - intros j [Ha _]%list_elem_of_filter [Hc _]%list_elem_of_filter.
    rewrite Hc in Ha. rewrite !elem_of_cons, elem_of_nil in Ha.
    destruct Ha as [?|[?|[]]]; done.
  - clear Hact. induction myJobs as [|j myJobs IH]; [done|].
    rewrite !filter_cons. simpl length.
    destruct (decide (ServiceRequest.status j = "completed")) as [Hc|Hc].
    + rewrite Hc. rewrite decide_False; [cbn [length]; lia|].
      rewrite !elem_of_cons, elem_of_nil. intros [?|[?|[]]]; done.
    + case_decide; cbn [length]; lia.
Qed.

(** ** Accounts *)

Lemma getUserByEmail_None accounts email :
  Users.getUserByEmail accounts email = None ↔ email ∉ Account.email <$> accounts.
Proof.
  unfold Users.getUserByEmail. rewrite head_None. split.
  - intros Hnil [a [-> Ha]]%list_elem_of_fmap.
    by apply (filter_nil_not_elem_of _ _ a Hnil).
  - intros Hno. apply filter_none. intros a Ha <-.
    apply Hno. by apply list_elem_of_fmap_2.
Qed.

Lemma getUserByEmail_new accounts row :
  (Account.email row ∉ Account.email <$> accounts) →
  Users.getUserByEmail (accounts ++ [row]) (Account.email row) = Some row.
Proof.
  intros Hno. unfold Users.getUserByEmail. rewrite filter_app, filter_none.
  - by rewrite filter_cons_True.
  - intros a Ha Heq. apply Hno. rewrite <- Heq. by apply list_elem_of_fmap_2.
Qed.

Lemma upsertUser_new accounts userData now :
  (UpsertUser.id userData ∉ Account.id <$> accounts) →
  (UpsertUser.email userData ∉ Account.email <$> accounts) →
  Users.upsertUser accounts userData now
  = Some (Users.inserted userData now,
          (accounts ++ [Users.inserted userData now])%list).
Proof.
  intros Hid Hemail. unfold Users.upsertUser. rewrite filter_none.
  - by rewrite decide_False.
  - intros a Ha Heq. apply Hid. rewrite <- Heq. by apply list_elem_of_fmap_2.
Qed.

(** X20.  A signup with a well-formed email and a password of at least six
    UTF-16 code units registers the email when it is not registered yet (the id
    being new): one row is appended, with the hash of the password, no
    role, no skills and the availability flag set, and the session is
    opened for it.  When the email is registered already the answer is 409
    and nothing changes. *)
Theorem signup_registers_new_email
    (lib : Lib) (accounts : list Account.t) (body : Auth.SignupBody)
    (uuid salt : string) (now : Z) :
  is_email lib (Auth.signup_email body) = true →
  min_length 6 (Auth.signup_password body) →
  ((Auth.signup_email body ∉ Account.email <$> accounts) →
   (uuid ∉ Account.id <$> accounts) →
   let row := Account.mk uuid (Auth.signup_email body)
                (Auth.signup_firstName body) (Auth.signup_lastName body)
                None None None
                (Some (bcrypt_hash lib (Auth.signup_password body) salt))
                (Some []) None (Some true) now (Some now) in
   Auth.post_auth_signup lib accounts body uuid salt now
   = (json row, (accounts ++ [row])%list, Some uuid))
  ∧ (Auth.signup_email body ∈ Account.email <$> accounts →
     Auth.post_auth_signup lib accounts body uuid salt now
     = (status_json 409 "Email already exists", accounts, None)).
Proof.
  intros Hemail Hpw. unfold Auth.post_auth_signup.
  rewrite decide_True by done. split.
  - intros Hnew Hid.
    rewrite (proj2 (getUserByEmail_None _ _) Hnew).
    by rewrite upsertUser_new.
  - intros Hin.
    destruct (Users.getUserByEmail accounts (Auth.signup_email body)) eqn:Hget;
      [done|].
    by apply getUserByEmail_None in Hget.
Qed.

Lemma signup_registers_new_email_witness :
  Auth.post_auth_signup toy_lib [] (Auth.mkSignup "a@b.c" "secret1" None None)
    "u1" "s1" 10
  = (json (Account.mk "u1" "a@b.c" None None None None None (Some "secret1")
             (Some []) None (Some true) 10 (Some 10)),
     [Account.mk "u1" "a@b.c" None None None None None (Some "secret1")
        (Some []) None (Some true) 10 (Some 10)],
     Some "u1").
Proof.
  refine (proj1 (signup_registers_new_email toy_lib []
                   (Auth.mkSignup "a@b.c" "secret1" None None) "u1" "s1" 10 _ _) _ _).
  - done.
  - unfold min_length. simpl. lia.
  - apply not_elem_of_nil.
  - apply not_elem_of_nil.
Defined.

(** X21.  Signing up and logging in round-trip: provided the password
    library accepts a password against its own hash and never returns the
    empty hash, after a successful signup under a new id a login with the
    same email and password is answered with the same user and opens the
    session for it. *)
Theorem login_after_signup
    (lib : Lib) (accounts : list Account.t) (body : Auth.SignupBody)
    (uuid salt : string) (now : Z) (user : Account.t)
    (accounts' : list Account.t) (session : option string) :
  (∀ password s, bcrypt_compare lib password (bcrypt_hash lib password s) = true) →
  bcrypt_hash lib (Auth.signup_password body) salt ≠ "" →
  (uuid ∉ Account.id <$> accounts) →
  Auth.post_auth_signup lib accounts body uuid salt now
  = (json user, accounts', session) →
  session = Some (Account.id user)
  ∧ Auth.post_auth_login lib accounts'
      (Auth.mkLogin (Auth.signup_email body) (Auth.signup_password body))
    = (json user, accounts', Some (Account.id user)).
Proof.
  intros Hcompare Hhash Hid. unfold Auth.post_auth_signup, Auth.post_auth_login.
  simpl. case_decide as Hvalid; [|done].
  destruct (Users.getUserByEmail accounts (Auth.signup_email body)) eqn:Hget; [done|].
  apply getUserByEmail_None in Hget.
  rewrite upsertUser_new by done.
  intros [= <- <- <-]. split; [done|].
  set (row := Users.inserted _ now).
  assert (Hl : Users.getUserByEmail (accounts ++ [row]) (Auth.signup_email body)
               = Some row) by exact (getUserByEmail_new accounts row Hget).
  rewrite Hl. simpl. rewrite decide_False by done.
  by rewrite Hcompare.
Qed.

Lemma login_after_signup_witness :
  Auth.post_auth_login toy_lib
    [Account.mk "u1" "a@b.c" None None None None None (Some "secret1")
       (Some []) None (Some true) 10 (Some 10)]
    (Auth.mkLogin "a@b.c" "secret1")
  = (json (Account.mk "u1" "a@b.c" None None None None None (Some "secret1")
             (Some []) None (Some true) 10 (Some 10)),
     [Account.mk "u1" "a@b.c" None None None None None (Some "secret1")
        (Some []) None (Some true) 10 (Some 10)],
     Some "u1").
Proof.
  refine (proj2 (login_after_signup toy_lib []
                   (Auth.mkSignup "a@b.c" "secret1" None None) "u1" "s1" 10
                   _ _ (Some "u1") _ _ _ _)).
  - intros password s. simpl. by apply bool_decide_eq_true_2.
  - done.
  - apply not_elem_of_nil.
  - by vm_compute.
Defined.

(** X22.  A login never changes the users table, and it opens a session
    only for a stored user with the email of the body whose stored hash is
    not empty and is accepted by the password library for the password of
    the body; the answer is then that user. *)
Theorem login_is_sound (lib : Lib) (accounts : list Account.t) (body : Auth.LoginBody) :
  let '(res, accounts', session) := Auth.post_auth_login lib accounts body in
  accounts' = accounts
  ∧ (code_of res = 200 ↔ is_Some session)
  ∧ ∀ userId, session = Some userId →
      ∃ user h, res = json user
        ∧ user ∈ accounts
        ∧ Account.id user = userId
        ∧ Account.email user = Auth.login_email body
        ∧ Account.passwordHash user = Some h
        ∧ h ≠ ""
        ∧ bcrypt_compare lib (Auth.login_password body) h = true.
Proof.
  unfold Auth.post_auth_login.
  case_decide; [|by repeat split; [intros [=]|intros []|]].
  destruct (Users.getUserByEmail accounts (Auth.login_email body)) as [user|] eqn:Hget;
    [|by repeat split; [intros [=]|intros []|]].
  case_decide as Hh; [by repeat split; [intros [=]|intros []|]|].
  destruct (bcrypt_compare lib _ _) eqn:Hcmp;
    [|by repeat split; [intros [=]|intros []|]].
  split; [done|]. split; [by split|].
  intros userId [= <-].
  unfold Users.getUserByEmail in Hget.
  apply head_Some_elem_of, list_elem_of_filter in Hget as [Hemail Hin].
  destruct (Account.passwordHash user) as [h|] eqn:Hhash; [|by destruct Hh].
  exists user, h. simpl in *. repeat split; try done.
Qed.

Lemma updateUser_rows accounts userId updates now (i : nat) a :
  accounts !! i = Some a →
  (Users.updateUser accounts userId updates now).2 !! i
  = Some (if decide (Account.id a = userId)
          then Users.set_user updates now a else a).
Proof. intros Hi. unfold Users.updateUser. simpl. by rewrite list_lookup_fmap, Hi. Qed.

Lemma patch_user_profile_state accounts userId body now :
  (Auth.patch_user_profile accounts userId body now).2 = accounts
  ∨ (Auth.patch_user_profile accounts userId body now).2
    = (Users.updateUser accounts userId (Auth.profile_updates body) now).2.
Proof.
  unfold Auth.patch_user_profile.
  repeat case_decide; try (by left).
  destruct (Users.updateUser _ _ _ _) as [[user|] accounts']; [by right|by left].
Qed.

(** X23.  A profile update touches only the caller's row and never its
    id, email, password hash or creation time: every row keeps its place
    and these four columns, and the rows of other users are unchanged.  A
    body with a member outside the schema is answered 400 and changes
    nothing. *)
Theorem profile_update_frame
    (accounts : list Account.t) (userId : string) (body : Auth.ProfileBody) (now : Z) :
  let res := Auth.patch_user_profile accounts userId body now in
  length res.2 = length accounts
  ∧ (∀ (i : nat) a, accounts !! i = Some a →
       ∃ a', res.2 !! i = Some a'
         ∧ Account.id a' = Account.id a
         ∧ Account.email a' = Account.email a
         ∧ Account.passwordHash a' = Account.passwordHash a
         ∧ Account.createdAt a' = Account.createdAt a
         ∧ (Account.id a ≠ userId → a' = a))
  ∧ (userId ≠ "" → Auth.profile_other_keys body ≠ [] →
     res = (status_json 400 "Invalid profile data", accounts)).
Proof.
  intros res. subst res. split; [|split].
  - destruct (patch_user_profile_state accounts userId body now) as [-> | ->];
      [done|]. unfold Users.updateUser. simpl. apply length_fmap.
  - intros i a Hi.
    destruct (patch_user_profile_state accounts userId body now) as [-> | ->].
    + exists a. by repeat split.
    + rewrite (updateUser_rows _ _ _ _ _ _ Hi).
      eexists. split; [done|]. by case_decide.
  - intros Hu Hk. unfold Auth.patch_user_profile.
    by rewrite !decide_False by done.
Qed.

Lemma NoDup_fmap_same {A B} (f : A → B) (g : A → A) (l : list A) :
  (∀ x, f (g x) = f x) → f <$> (g <$> l) = f <$> l.
Proof.
  intros Hfg. rewrite <- list_fmap_compose. apply list_fmap_ext.
  intros i x _. simpl. by rewrite Hfg.
Qed.

(** X24.  Ids and emails stay unique: if no two users share an id or an
    email, the same holds after any signup under a new id and after any
    profile update. *)
Theorem accounts_stay_unique (accounts : list Account.t) :
  NoDup (Account.id <$> accounts) →
  NoDup (Account.email <$> accounts) →
  (∀ lib body uuid salt now,
     (uuid ∉ Account.id <$> accounts) →
     NoDup (Account.id <$> (Auth.post_auth_signup lib accounts body uuid salt now).1.2)
     ∧ NoDup (Account.email
                <$> (Auth.post_auth_signup lib accounts body uuid salt now).1.2))
  ∧ (∀ userId body now,
       NoDup (Account.id <$> (Auth.patch_user_profile accounts userId body now).2)
       ∧ NoDup (Account.email
                  <$> (Auth.patch_user_profile accounts userId body now).2)).
Proof.
  intros Hid Hemail. split.
  - intros lib body uuid salt now Hfresh. unfold Auth.post_auth_signup.
    case_decide; [|done].
    destruct (Users.getUserByEmail accounts (Auth.signup_email body)) eqn:Hget;
      [done|].
    apply getUserByEmail_None in Hget.
    rewrite upsertUser_new by done. simpl. rewrite !fmap_app. simpl.
    split; apply NoDup_app; (split; [done|]);
      (split; [|apply NoDup_singleton]);
      intros x Hx ->%list_elem_of_singleton; done.
  - intros userId body now.
    destruct (patch_user_profile_state accounts userId body now) as [-> | ->];
      [done|].
    unfold Users.updateUser. simpl.
    rewrite !NoDup_fmap_same; [done|..]; intros a; by case_decide.
Qed.

Lemma accounts_stay_unique_witness :
  NoDup (Account.email
           <$> (Auth.post_auth_signup toy_lib [] (Auth.mkSignup "a@b.c" "secret1" None None)
                  "u1" "s1" 10).1.2).
Proof.
  refine (proj2 (proj1 (accounts_stay_unique [] _ _) toy_lib
                   (Auth.mkSignup "a@b.c" "secret1" None None) "u1" "s1" 10 _)).
  - apply NoDup_nil_2.
  - apply NoDup_nil_2.
  - apply not_elem_of_nil.
Defined.

Lemma getUser_projection accounts reqs pays userId :
  getUser (mkDb (Account.to_user <$> accounts) reqs pays) userId
  = Account.to_user <$> Users.getUser accounts userId.
Proof.
  unfold getUser, Users.getUser. simpl.
  induction accounts as [|a accounts IH]; [done|].
  rewrite fmap_cons, !filter_cons. simpl.
  destruct (decide (Account.id a = userId)); [done|]. apply IH.
Qed.

Lemma getUser_updated accounts userId updates now :
  Users.getUser (Users.updateUser accounts userId updates now).2 userId
  = Users.set_user updates now <$> Users.getUser accounts userId.
Proof.
  unfold Users.getUser, Users.updateUser. simpl.
  induction accounts as [|a accounts IH]; [done|].
  rewrite fmap_cons, !filter_cons.
  destruct (decide (Account.id a = userId)) as [Ha|Ha].
  - by rewrite decide_True by done.
  - by rewrite decide_False by done.
Qed.

(** X25.  The role chosen on the onboarding page decides what the request
    routes answer from then on, whatever the user was before and whatever
    requests are stored: after the update a client is refused the
    availability listing and gets the requests with their clientId, a
    technician is answered the availability listing for their skills and
    gets the requests with their technicianId. *)
Theorem onboarding_role_scopes_the_routes
    (accounts : list Account.t) (userId : string) (account : Account.t)
    (role : User.UserType) (now : Z)
    (reqs : list ServiceRequest.t) (pays : list Payment.t) :
  userId ≠ "" →
  Users.getUser accounts userId = Some account →
  let res := Auth.patch_user_profile accounts userId
               (AccountPages.onboarding_payload role) now in
  let db' := mkDb (Account.to_user <$> res.2) reqs pays in
  code_of res.1 = 200
  ∧ (User.userType <$> getUser db' userId = Some (Some role))
  ∧ match role with
    | User.client =>
        get_available db' userId
        = status_json 403 "Access denied. Technician role required."
        ∧ Queries.get_service_requests db' userId
          = json (getServiceRequestsByClient db' userId)
    | User.technician =>
        get_available db' userId
        = json (getAvailableServiceRequests db'
                  (Some (default [] (Account.skills account))))
        ∧ Queries.get_service_requests db' userId
          = json (getServiceRequestsByTechnician db' userId)
    end.
Proof.
  intros Hne Hget res db'.
  assert (Hupd : Users.getUser
                   (Users.updateUser accounts userId
                      (Auth.profile_updates (AccountPages.onboarding_payload role))
                      now).2 userId
                 = Some (Users.set_user
                           (Auth.profile_updates (AccountPages.onboarding_payload role))
                           now account))
    by (by rewrite getUser_updated, Hget).
  assert (Hres : res = (json (Users.set_user
                                (Auth.profile_updates
                                   (AccountPages.onboarding_payload role)) now account),
                        (Users.updateUser accounts userId
                           (Auth.profile_updates (AccountPages.onboarding_payload role))
                           now).2)).
  { subst res. unfold Auth.patch_user_profile.
    rewrite decide_False by done. rewrite decide_True by done.
    destruct (Users.updateUser _ _ _ _) as [first rows] eqn:Hu.
    assert (first = Users.getUser rows userId) as ->.
    { unfold Users.updateUser in Hu. injection Hu as <- <-. done. }
    simpl in Hupd. by rewrite Hupd. }
  assert (Hdb : getUser db' userId
                = Some (Account.to_user
                          (Users.set_user
                             (Auth.profile_updates
                                (AccountPages.onboarding_payload role)) now account))).
  { subst db'. rewrite Hres. cbn [snd]. by rewrite getUser_projection, Hupd. }
  split; [by rewrite Hres|]. split; [by rewrite Hdb|].
  unfold get_available, Queries.get_service_requests. rewrite Hdb. simpl.
  destruct role; by simpl.
Qed.

Lemma onboarding_role_scopes_the_routes_witness :
  User.userType
    <$> getUser
          (mkDb (Account.to_user
                   <$> (Auth.patch_user_profile
                          [Account.mk "u1" "a@b.c" None None None None None
                             (Some "secret1") (Some []) None (Some true) 10 (Some 10)]
                          "u1" (AccountPages.onboarding_payload User.technician) 20).2)
             [] []) "u1"
  = Some (Some User.technician).
Proof.
  refine (proj1 (proj2 (onboarding_role_scopes_the_routes
    [Account.mk "u1" "a@b.c" None None None None None (Some "secret1")
       (Some []) None (Some true) 10 (Some 10)]
    "u1" _ User.technician 20 [] [] _ _))).
  - done.
  - by vm_compute.
Defined.

(** ** The public listing and the landing page *)

Lemma count_status_Permutation (P : string → Prop) `{∀ s, Decision (P s)}
    (l k : list ServiceRequest.t) :
  l ≡ₚ k → Pages.count_status P l = Pages.count_status P k.
Proof. intros Hp. unfold Pages.count_status. by rewrite Hp. Qed.

(** X9.  The public route lists every stored request, newest first, to
    whoever asks; so the total on the landing page is the number of stored
    requests and each status counter is the number of stored requests with
    that status. *)
Theorem landing_totals_count_the_table (db : Db) :
  ∃ jobs, Queries.get_public_alljobs db = json jobs
    ∧ StronglySorted desc_createdAt jobs
    ∧ jobs ≡ₚ serviceRequests db
    ∧ Pages.totals jobs = Pages.totals (serviceRequests db).
Proof.
  eexists. split; [done|]. unfold getAllServiceRequests.
  assert (Hp : merge_sort desc_createdAt (serviceRequests db) ≡ₚ serviceRequests db)
    by apply merge_sort_Permutation.
  split; [apply (StronglySorted_merge_sort _)|]. split; [done|].
  unfold Pages.totals.
  rewrite !(count_status_Permutation _ _ _ Hp). by rewrite Hp.
Qed.

(** ** Skills and the availability listing *)

Lemma toggleSkill_elem (user_skills : option (list string)) (skill : string) :
  skill ∈ Pages.toggleSkill user_skills skill ↔ skill ∉ default [] user_skills.
Proof.
  unfold Pages.toggleSkill. case_decide as Hin.
  - rewrite list_elem_of_filter. split; [intros [? _]; done|done].
  - rewrite elem_of_app, list_elem_of_singleton. tauto.
Qed.

(** X26.  After a technician toggles a skill on the profile page, a
    pending unassigned request of that service type is in the technician's
    availability listing exactly when the skill was switched on, or when
    switching it off left no skill at all. *)
Theorem toggled_skill_and_listing
    (accounts : list Account.t) (userId : string) (account : Account.t)
    (skill : string) (now : Z)
    (reqs : list ServiceRequest.t) (pays : list Payment.t) :
  userId ≠ "" →
  Users.getUser accounts userId = Some account →
  Account.userType account = Some User.technician →
  let newSkills := Pages.toggleSkill (Account.skills account) skill in
  let res := Auth.patch_user_profile accounts userId
               (AccountPages.skills_payload newSkills) now in
  let db' := mkDb (Account.to_user <$> res.2) reqs pays in
  ∃ l, get_available db' userId = json l
    ∧ ∀ r, r ∈ reqs →
           ServiceRequest.status r = "pending" →
           ServiceRequest.technicianId r = None →
           ServiceRequest.serviceType r = skill →
           (r ∈ l ↔ skill ∉ default [] (Account.skills account) ∨ newSkills = []).
Proof.
  intros Hne Hget Htech newSkills res db'.
  set (upd := Auth.profile_updates (AccountPages.skills_payload newSkills)).
  assert (Hupd : Users.getUser (Users.updateUser accounts userId upd now).2 userId
                 = Some (Users.set_user upd now account))
    by (by rewrite getUser_updated, Hget).
  assert (Hres : res.2 = (Users.updateUser accounts userId upd now).2).
  { subst res. unfold Auth.patch_user_profile.
    rewrite decide_False by done. rewrite decide_True by done.
    destruct (Users.updateUser _ _ _ _) as [first rows] eqn:Hu.
    assert (first = Users.getUser rows userId) as ->.
    { unfold Users.updateUser in Hu. injection Hu as <- <-. done. }
    simpl in Hupd. by rewrite Hupd. }
  assert (Hdb : getUser db' userId
                = Some (Account.to_user (Users.set_user upd now account))).
  { subst db'. rewrite Hres. by rewrite getUser_projection, Hupd. }
  exists (getAvailableServiceRequests db' (Some newSkills)). split.
  - unfold get_available. rewrite Hdb.
    cbn [Account.to_user User.userType User.skills].
    change (Account.userType (Users.set_user upd now account))
      with (Account.userType account).
    change (Account.skills (Users.set_user upd now account)) with (Some newSkills).
    rewrite Htech. by rewrite decide_True by done.
  - intros r Hr Hs Ht Hty. rewrite available_elem.
    change (default [] (Some newSkills)) with newSkills.
    rewrite Hty. unfold newSkills at 2.
    rewrite toggleSkill_elem. subst db'. cbn [serviceRequests]. tauto.
Qed.

Lemma toggled_skill_and_listing_witness :
  ∃ l, get_available
         (mkDb (Account.to_user
                  <$> (Auth.patch_user_profile
                         [Account.mk "T1" "t@b.c" None None None None
                            (Some User.technician) None (Some ["Plumber"]) None
                            (Some true) 10 (Some 10)]
                         "T1"
                         (AccountPages.skills_payload
                            (Pages.toggleSkill (Some ["Plumber"]) "Plumber")) 20).2)
            [] []) "T1" = json l.
Proof.
  destruct (toggled_skill_and_listing
    [Account.mk "T1" "t@b.c" None None None None (Some User.technician) None
       (Some ["Plumber"]) None (Some true) 10 (Some 10)]
    "T1" _ "Plumber" 20 [] [] ltac:(done) ltac:(by vm_compute) ltac:(done))
    as (l & Hl & _).
  by exists l.
Defined.

(** ** The job form against the technician route *)

(** X27.  The job form and the technician route validate alike: for a
    technician, the body the form posts is refused as invalid (400) exactly
    when the form's own schema rejects the values; values the form accepts
    are stored, under a new id, as a pending request with the technician as
    client and as technician. *)
Theorem job_form_and_route_agree
    (db : Db) (userId : string) (user : User.t)
    (serviceType description location uuid : string) (now : Z) :
  getUser db userId = Some user →
  User.userType user = Some User.technician →
  let res := post_technician_jobs db userId
               (Pages.createJob_body serviceType description location) uuid now in
  (res = (status_json 400 "Invalid job data", db)
   ↔ ¬ Pages.createJobSchema serviceType description location)
  ∧ (Pages.createJobSchema serviceType description location →
     (uuid ∉ ServiceRequest.id <$> serviceRequests db) →
     res = (json (ServiceRequest.mk uuid userId (Some userId) serviceType
                    description location "pending" None None (Some []) now now),
            mkDb (users db)
              (serviceRequests db
                 ++ [ServiceRequest.mk uuid userId (Some userId) serviceType
                       description location "pending" None None (Some []) now now])
              (payments db))).
Proof.
  intros Hu Ht res. subst res.
  unfold post_technician_jobs, Pages.createJob_body, Pages.createJobSchema,
    minimalSchema_parse. rewrite Hu. simpl. rewrite decide_True by done.
  pose proof (getUser_references _ _ _ Hu) as Href.
  case_decide as Hlen.
  - unfold createServiceRequest. simpl. split.
    + split; [|done]. case_decide; intros [=].
    + intros _ Hfresh. by rewrite decide_True.
  - split; [done|]. intros ?. done.
Qed.

Lemma job_form_and_route_agree_witness :
  Pages.createJobSchema "Plumber" "Kitchen sink leaks" "Cairo"
  ∧ code_of (post_technician_jobs Scenario.db0 "T1"
               (Pages.createJob_body "Plumber" "Kitchen sink leaks" "Cairo")
               "r1" 1000).1 = 200.
Proof.
  assert (Hv : Pages.createJobSchema "Plumber" "Kitchen sink leaks" "Cairo")
    by (unfold Pages.createJobSchema, min_length; simpl; lia).
  split; [exact Hv|].
  rewrite (proj2 (job_form_and_route_agree Scenario.db0 "T1" Scenario.tina
                    "Plumber" "Kitchen sink leaks" "Cairo" "r1" 1000
                    ltac:(by vm_compute) ltac:(done)) Hv);
    [done|apply not_elem_of_nil].
Defined.

(** ** Repeating an update *)

Lemma set_row_twice upd n1 n2 r :
  set_row upd n2 (set_row upd n1 r) = set_row upd n2 r.
Proof.
  destruct upd as [i c cl t ty d l st q nt im]. unfold set_row. simpl.
  by destruct i, cl, t, ty, d, l, st, q, nt, im.
Qed.

Lemma update_where_twice rid upd n1 n2 r :
  default rid (Partial.id upd) = rid →
  update_where rid upd n2 (update_where rid upd n1 r) = update_where rid upd n2 r.
Proof.
  intros Hkey.
  destruct (decide (ServiceRequest.id r = rid)) as [Hid|Hid].
  - rewrite (update_where_hit rid upd n1 r Hid), (update_where_hit rid upd n2 r Hid).
    rewrite update_where_hit; [apply set_row_twice|].
    simpl. by rewrite Hid.
  - by rewrite (update_where_miss rid upd n1 r Hid).
Qed.

(** A request that is still found under its key after an update has kept
    the key. *)
Lemma found_again_keeps_key db rid upd now :
  is_Some (getServiceRequest
             (mkDb (users db) (update_where rid upd now <$> serviceRequests db)
                (payments db)) rid) →
  default rid (Partial.id upd) = rid.
Proof.
  intros [r Hr].
  destruct (decide (default rid (Partial.id upd) = rid)) as [|Hne]; [done|].
  unfold getServiceRequest in Hr. simpl in Hr.
  by rewrite filter_id_vacated in Hr.
Qed.

(** X4.  Sending the same update again changes nothing but updatedAt:
    when an update is applied and the caller may still update the request
    afterwards, the second application answers and leaves the table exactly
    as a single application at the later time would have. *)
Theorem repeated_update_is_idempotent
    (db : Db) (userId rid : string) (upd : Partial.t) (n1 n2 : Z) :
  patch_applies db userId rid upd →
  let db1 := (patch_service_request db userId rid upd n1).2 in
  patch_applies db1 userId rid upd →
  patch_service_request db1 userId rid upd n2
  = patch_service_request db userId rid upd n2.
Proof.
  intros Happ db1 Happ1.
  destruct (patch_applied db userId rid upd n1 Happ) as (r & Hr & Heq1).
  destruct (patch_applied db userId rid upd n2 Happ) as (r' & Hr' & ->).
  assert (r' = r) as -> by congruence.
  destruct (patch_applied db1 userId rid upd n2 Happ1) as (r1 & Hr1 & ->).
  subst db1. rewrite Heq1 in *. simpl in *.
  assert (Hkey : default rid (Partial.id upd) = rid).
  { apply (found_again_keeps_key db rid upd n1). by rewrite Hr1. }
  rewrite getServiceRequest_update, Hr in Hr1 by (by left). simpl in Hr1.
  injection Hr1 as <-.
  destruct (getServiceRequest_id _ _ _ Hr) as [Hid _].
  f_equal.
  - by rewrite (update_where_hit rid upd n1 r Hid), set_row_twice.
  - f_equal. rewrite <- list_fmap_compose. apply list_fmap_ext.
    intros i x _. by apply update_where_twice.
Qed.

Lemma repeated_update_is_idempotent_witness :
  patch_service_request
    (patch_service_request Scenario.accepted "T1" "r1"
       (updateStatusMutation "in_progress") 3000).2
    "T1" "r1" (updateStatusMutation "in_progress") 3500
  = patch_service_request Scenario.accepted "T1" "r1"
      (updateStatusMutation "in_progress") 3500.
Proof.
  apply (repeated_update_is_idempotent Scenario.accepted "T1" "r1"
           (updateStatusMutation "in_progress") 3000 3500).
  - eexists. split; [by vm_compute|].
    split; [by vm_compute; eauto|]. split; [by left|done].
  - eexists. split; [by vm_compute|].
    split; [by vm_compute; eauto|]. split; [by left|done].
Defined.
